(** * Grok MCP server: the request pipeline and the upstream client

    A shallow embedding of [handleToolCall] (the server entry point), of its
    helpers [checkAuth], [sanitize] and [handleError], and of the two
    [GrokClient] implementations the repository carries, followed by the
    properties of the request pipeline.

    JavaScript values are dynamically typed, so the embedding works on one
    type of values; exceptions are an explicit error result; the mutable
    state (response cache, metric sinks, the trace of upstream HTTP calls,
    the clock) is threaded through a state-and-error monad. *)

From Stdlib Require Import ZArith QArith Qround String Ascii List Bool Lia DecimalString.
From stdpp Require Import base option list strings gmap.

Close Scope Q_scope.
Open Scope string_scope.
Open Scope list_scope.

(* ===================================================================== *)
(** * JavaScript values *)
(* ===================================================================== *)

Module JS.

(** Numbers. Every finite double is a rational; the pipeline only compares
    numbers with constants, tests them for being integers and takes
    [Math.floor], all of which are exact, so finite numbers are modelled by
    [Q]. *)
Inductive number :=
| Fin (q : Q)
| NaN
| PosInf
| NegInf.

(** Strings are Rocq strings, read as the UTF-8 bytes of the JavaScript
    string (the bytes [Buffer.from] yields). Every pattern the code looks
    for is ASCII, and an ASCII byte never occurs inside a multi-byte UTF-8
    sequence, so removing and searching bytes agrees with doing so on the
    characters. A JavaScript string with a lone surrogate has no such
    reading and is outside the model. *)

Unset Elimination Schemes.
Inductive value :=
| VUndef
| VNull
| VBool (b : bool)
| VNum (n : number)
| VStr (s : string)
| VArr (l : list value)
| VObj (kvs : list (string * value)).
Set Elimination Schemes.

(** Objects keep their keys in insertion order. *)
Definition object := list (string * value).

Section value_ind.
Variable P : value -> Prop.
Hypothesis Hundef : P VUndef.
Hypothesis Hnull : P VNull.
Hypothesis Hbool : forall b, P (VBool b).
Hypothesis Hnum : forall n, P (VNum n).
Hypothesis Hstr : forall s, P (VStr s).
Hypothesis Harr : forall l, Forall P l -> P (VArr l).
Hypothesis Hobj : forall kvs, Forall (fun kv => P (snd kv)) kvs -> P (VObj kvs).

Fixpoint value_ind (v : value) : P v :=
  match v with
  | VUndef => Hundef
  | VNull => Hnull
  | VBool b => Hbool b
  | VNum n => Hnum n
  | VStr s => Hstr s
  | VArr l =>
      Harr l ((fix go (l : list value) : Forall P l :=
                 match l with
                 | [] => @List.Forall_nil _ P
                 | x :: r => @List.Forall_cons _ P x r (value_ind x) (go r)
                 end) l)
  | VObj kvs =>
      Hobj kvs ((fix go (kvs : list (string * value))
                   : Forall (fun kv => P (snd kv)) kvs :=
                   match kvs with
                   | [] => @List.Forall_nil _ _
                   | kv :: r => @List.Forall_cons _ (fun kv => P (snd kv)) kv r (value_ind (snd kv)) (go r)
                   end) kvs)
  end.
End value_ind.

(** Thrown values. The three recognised application errors of [errors.ts]
    ([AppError] subclasses carry a status code), and every other thrown
    value, of which only the [message] property (if any) is ever read. *)
Inductive error :=
| ValidationError (message : string)
| AuthError (message : string)
| ExternalServiceError (message : string) (statusCode : Z)
| AxiosError (status : option Z) (apiMessage : value) (message : string)
| OtherError (message : option string).

Inductive result (A : Type) :=
| Ok (a : A)
| Throw (e : error).
Arguments Ok {A} a.
Arguments Throw {A} e.

(** Sequencing of what may throw. *)
Definition rbind {A B} (r : result A) (k : A -> result B) : result B :=
  match r with
  | Ok a => k a
  | Throw e => Throw e
  end.

Notation "x <~ r ;; k" := (rbind r (fun x => k))
  (at level 100, r at next level, right associativity).

(** [ToBoolean]. *)
Definition truthy (v : value) : bool :=
  match v with
  | VUndef | VNull => false
  | VBool b => b
  | VNum (Fin q) => negb (Qeq_bool q 0)
  | VNum NaN => false
  | VNum _ => true
  | VStr s => negb (String.eqb s "")
  | VArr _ | VObj _ => true
  end.

(** [a || b] and [a ?? b] on values. *)
Definition or_else (a b : value) : value := if truthy a then a else b.
Definition nullish (v : value) : bool :=
  match v with VUndef | VNull => true | _ => false end.
Definition coalesce (a b : value) : value := if nullish a then b else a.

(** Own properties of an object: [o[k]], and [o[k] = v], which overwrites
    in place or appends a new key. *)
Fixpoint obj_get (k : string) (o : object) : value :=
  match o with
  | [] => VUndef
  | (k', v) :: r => if decide (k = k') then v else obj_get k r
  end.

Fixpoint obj_set (k : string) (v : value) (o : object) : object :=
  match o with
  | [] => [(k, v)]
  | (k', v') :: r =>
      if decide (k = k') then (k, v) :: r else (k', v') :: obj_set k v r
  end.

(** [{...a, ...b}]: the properties of [b] are assigned over those of [a]. *)
Definition obj_spread (a b : object) : object :=
  fold_left (fun acc kv => obj_set (fst kv) (snd kv) acc) b a.

(** The message V8 gives to a property read on [undefined] or [null]. *)
Definition cannot_read (v : value) (k : string) : error :=
  OtherError (Some ("Cannot read properties of "
                    +:+ (match v with VNull => "null" | _ => "undefined" end)
                    +:+ " (reading '" +:+ k +:+ "')")).

(** [v.k] for the property names the code reads (none of them is a member
    of a built-in prototype, except [length]). [len] is the platform's
    string length. *)
Definition get_prop (len : string -> nat) (v : value) (k : string) : result value :=
  match v with
  | VUndef | VNull => Throw (cannot_read v k)
  | VObj o => Ok (obj_get k o)
  | VArr l =>
      if decide (k = "length") then Ok (VNum (Fin (inject_Z (Z.of_nat (length l)))))
      else Ok VUndef
  | VStr s =>
      if decide (k = "length") then Ok (VNum (Fin (inject_Z (Z.of_nat (len s)))))
      else Ok VUndef
  | VBool _ | VNum _ => Ok VUndef
  end.

(** [v?.k]. *)
Definition get_opt (len : string -> nat) (v : value) (k : string) : value :=
  match get_prop len v k with
  | Ok x => x
  | Throw _ => VUndef
  end.

(** [v[0]]. *)
Definition get_first (v : value) : result value :=
  match v with
  | VUndef | VNull => Throw (cannot_read v "0")
  | VArr l => Ok (match l with x :: _ => x | [] => VUndef end)
  | VObj o => Ok (obj_get "0" o)
  | VStr s => Ok (match s with String c _ => VStr (String c "") | _ => VUndef end)
  | VBool _ | VNum _ => Ok VUndef
  end.

(** [Number.isInteger] and [Math.floor]. *)
Definition is_integer (n : number) : bool :=
  match n with
  | Fin q => Qeq_bool (inject_Z (Qfloor q)) q
  | _ => false
  end.

Definition floor (n : number) : number :=
  match n with
  | Fin q => Fin (inject_Z (Qfloor q))
  | _ => n
  end.

(** [Math.trunc], which the pipeline does not use; it is here to be
    compared with [floor]. *)
Definition trunc (n : number) : number :=
  match n with
  | Fin q => Fin (inject_Z (Z.quot (Qnum q) (Zpos (Qden q))))
  | _ => n
  end.

Definition of_Z (z : Z) : value := VNum (Fin (inject_Z z)).

(** [v === 's'] for a string literal. *)
Definition is_str (v : value) (s : string) : bool :=
  match v with
  | VStr x => String.eqb x s
  | _ => false
  end.

(** The values that can be converted to a primitive. No value here is
    callable, so an own [toString] property of an object hides
    [Object.prototype.toString], and [valueOf] (inherited, it returns the
    object itself; own, it is not callable) does not help: the conversion
    throws a TypeError. An array is converted by joining the conversions
    of its elements, so it can be converted when they all can. *)
Fixpoint printable (v : value) : bool :=
  match v with
  | VArr l => forallb printable l
  | VObj kvs => negb (existsb (fun kv => String.eqb (fst kv) "toString") kvs)
  | _ => true
  end.

Definition cannot_convert : error :=
  OtherError (Some "Cannot convert object to primitive value").

End JS.
Export JS.

(** The built-ins of the platform (ECMAScript, Node) that the code calls
    and whose definition is not part of the repository. *)
Record Platform := {
  StringToNumber : string -> number;          (* [Number(s)] on a string *)
  ToString : value -> string;                 (* string conversion, of a value
                                                 that has one *)
  JSON_stringify : value -> string;
  JSON_parse : string -> option value;        (* [None]: throws SyntaxError *)
  str_trim : string -> string;
  str_length : string -> nat;                 (* UTF-16 length *)
  code_points : string -> list string;        (* what iterating a string yields *)
  Buffer_from : value -> option string;       (* on what is not a string;
                                                 [None]: throws TypeError *)
  substring : nat -> nat -> string -> string;
  encodeURIComponent : string -> string;
  URL_parse : string -> option (string * string); (* hostname, pathname *)
  match_urls : string -> list string;         (* /https?:\/\/[^\s]+/g *)
  date_offset : nat -> string;                (* today minus n days, ISO date *)
}.

(* ===================================================================== *)
(** * index.ts: sanitize *)
(* ===================================================================== *)

(** The characters removed by the [replace] of [sanitize]: less-than,
    greater-than, double quote, single quote and backquote (codes 60, 62,
    34, 39 and 96). *)
Definition is_stripped (c : ascii) : bool :=
  match Ascii.N_of_ascii c with
  | 60%N | 62%N | 34%N | 39%N | 96%N => true
  | _ => false
  end.

Fixpoint strip (s : string) : string :=
  match s with
  | EmptyString => EmptyString
  | String c r => if is_stripped c then strip r else String c (strip r)
  end.

(** [s.includes(sub)]. *)
Fixpoint includes (sub s : string) : bool :=
  String.prefix sub s ||
  match s with
  | EmptyString => false
  | String _ r => includes sub r
  end.

(** The keys [sanitize] skips: [k.startsWith('$') || k.includes('__proto__')]. *)
Definition dropped (k : string) : bool :=
  String.prefix "$" k || includes "__proto__" k.

Fixpoint sanitize (obj : value) : value :=
  match obj with
  | VStr s => VStr (strip s)
  | VArr l => VArr (map sanitize l)
  | VObj kvs =>
      VObj (fold_left
              (fun clean kv =>
                 if dropped (fst kv) then clean
                 else obj_set (fst kv) (sanitize (snd kv)) clean)
              kvs [])
  | _ => obj
  end.

(** [Number(v)]: an object or an array is converted to a string first,
    which throws when it has no conversion. *)
Definition to_number (P : Platform) (v : value) : result number :=
  match v with
  | VUndef => Ok NaN
  | VNull => Ok (Fin 0)
  | VBool b => Ok (if b then Fin 1 else Fin 0)
  | VNum n => Ok n
  | VStr s => Ok (StringToNumber P s)
  | VArr _ | VObj _ =>
      if printable v then Ok (StringToNumber P (ToString P v))
      else Throw cannot_convert
  end.

(* ===================================================================== *)
(** * The response cache (lru-cache) *)
(* ===================================================================== *)

Module LRU.

(** Modelled from the spec: the third-party [LRUCache] the client creates
    with [{ max: 100, ttl: 1000 * 60 * 5 }]. An entry remembers when it was
    written; [get] never returns an entry older than the TTL (it removes it)
    and marks the entry it returns as most recently used; [set] writes at
    the front and evicts the least recently used entry beyond the capacity.
    Setting [undefined] deletes the key. *)
Record entry := { e_key : string; e_val : value; e_start : Z }.

Definition t := list entry. (* most recently used first *)

Definition max : nat := 100.
Definition ttl : Z := 1000 * 60 * 5.

Definition find (k : string) (c : t) : option entry :=
  List.find (fun e => bool_decide (e_key e = k)) c.

Definition remove (k : string) (c : t) : t :=
  List.filter (fun e => negb (bool_decide (e_key e = k))) c.

Definition stale (now : Z) (e : entry) : bool := (ttl <? now - e_start e)%Z.

Definition get (now : Z) (k : string) (c : t) : value * t :=
  match find k c with
  | None => (VUndef, c)
  | Some e =>
      if stale now e then (VUndef, remove k c)
      else (e_val e, e :: remove k c)
  end.

Definition set (now : Z) (k : string) (v : value) (c : t) : t :=
  match v with
  | VUndef => remove k c
  | _ => firstn max ({| e_key := k; e_val := v; e_start := now |} :: remove k c)
  end.

End LRU.

(* ===================================================================== *)
(** * State, upstream and the monad of effects *)
(* ===================================================================== *)

(** One HTTP exchange with the upstream, as the axios instance sees it. *)
Record http_call := { method : string; path : string; body : value }.

(** What the upstream answers: after [delay] milliseconds, either the
    [data] of the response or a rejection. *)
Record http_reply := { delay : N; outcome : result value }.

(** The label set of a metric sample; the sinks are keyed by it. *)
Definition labels := list (string * string).

Record state := {
  now : Z;                              (* the clock, in milliseconds *)
  cache : LRU.t;                        (* [GrokClient.cache] *)
  last_launch : option Z;               (* when the limiter last started a job *)
  http_log : list http_call;            (* upstream calls so far, oldest first *)
  requestCounter : gmap labels nat;
  errorCounter : gmap labels nat;
  latencyHistogram : list (labels * Z); (* observed durations, oldest first *)
}.

(** [GrokConfig] of [types.ts], as built in [index.ts]. *)
Record GrokConfig := {
  apiKey : string;
  baseUrl : string;
  model : string;
  temperature : number;
  maxTokens : number;
}.

(** What surrounds the code: the platform, the upstream (which may answer
    according to everything it was asked before), the configuration and
    the [SHARED_SECRET] environment variable. *)
Record Env := {
  plat : Platform;
  upstream : list http_call -> http_call -> http_reply;
  config : GrokConfig;
  SHARED_SECRET : option string;
  register_metrics : state -> string;   (* prom-client's text exposition *)
}.

Definition M (A : Type) : Type := state -> result A * state.

Definition ret {A} (a : A) : M A := fun st => (Ok a, st).
Definition throw {A} (e : error) : M A := fun st => (Throw e, st).
Definition bind {A B} (m : M A) (k : A -> M B) : M B :=
  fun st =>
    match m st with
    | (Ok a, st') => k a st'
    | (Throw e, st') => (Throw e, st')
    end.
Definition try_catch {A} (m : M A) (h : error -> M A) : M A :=
  fun st =>
    match m st with
    | (Ok a, st') => (Ok a, st')
    | (Throw e, st') => h e st'
    end.
Definition lift {A} (r : result A) : M A := fun st => (r, st).

Notation "x <- m ;; k" := (bind m (fun x => k))
  (at level 100, m at next level, right associativity).
Notation "m ;;; k" := (bind m (fun _ => k))
  (at level 100, right associativity).

Definition set_now (z : Z) (st : state) : state :=
  {| now := z; cache := cache st; last_launch := last_launch st;
     http_log := http_log st; requestCounter := requestCounter st;
     errorCounter := errorCounter st; latencyHistogram := latencyHistogram st |}.
Definition set_cache (c : LRU.t) (st : state) : state :=
  {| now := now st; cache := c; last_launch := last_launch st;
     http_log := http_log st; requestCounter := requestCounter st;
     errorCounter := errorCounter st; latencyHistogram := latencyHistogram st |}.
Definition set_last_launch (l : option Z) (st : state) : state :=
  {| now := now st; cache := cache st; last_launch := l;
     http_log := http_log st; requestCounter := requestCounter st;
     errorCounter := errorCounter st; latencyHistogram := latencyHistogram st |}.
Definition set_http_log (l : list http_call) (st : state) : state :=
  {| now := now st; cache := cache st; last_launch := last_launch st;
     http_log := l; requestCounter := requestCounter st;
     errorCounter := errorCounter st; latencyHistogram := latencyHistogram st |}.
Definition set_requestCounter (m : gmap labels nat) (st : state) : state :=
  {| now := now st; cache := cache st; last_launch := last_launch st;
     http_log := http_log st; requestCounter := m;
     errorCounter := errorCounter st; latencyHistogram := latencyHistogram st |}.
Definition set_errorCounter (m : gmap labels nat) (st : state) : state :=
  {| now := now st; cache := cache st; last_launch := last_launch st;
     http_log := http_log st; requestCounter := requestCounter st;
     errorCounter := m; latencyHistogram := latencyHistogram st |}.
Definition set_latencyHistogram (l : list (labels * Z)) (st : state) : state :=
  {| now := now st; cache := cache st; last_launch := last_launch st;
     http_log := http_log st; requestCounter := requestCounter st;
     errorCounter := errorCounter st; latencyHistogram := l |}.

(** [this.cache.get(k)] and [this.cache.set(k, v)]. *)
Definition cache_get (k : string) : M value :=
  fun st => let (v, c) := LRU.get (now st) k (cache st) in (Ok v, set_cache c st).
Definition cache_set (k : string) (v : value) : M unit :=
  fun st => (Ok tt, set_cache (LRU.set (now st) k v (cache st)) st).

(** The axios instance: the call is appended to the trace, the clock
    advances by the time the upstream took, and the promise settles the way
    the upstream decided. *)
Definition http (E : Env) (c : http_call) : M value :=
  fun st =>
    let r := upstream E (http_log st) c in
    (outcome r,
     set_now (now st + Z.of_N (delay r)) (set_http_log (http_log st ++ [c]) st)).

(** [this.limiter.schedule(job)], [Bottleneck({ maxConcurrent: 2, minTime:
    500 })], for jobs awaited one after the other: a job is launched no
    sooner than 500 ms after the previous launch. *)
Definition minTime : Z := 500.
Definition limiter_schedule {A} (job : M A) : M A :=
  fun st =>
    let start :=
      match last_launch st with
      | Some l => Z.max (now st) (l + minTime)
      | None => now st
      end in
    job (set_last_launch (Some start) (set_now start st)).

(* ===================================================================== *)
(** * Helpers for strings, arrays and numbers *)
(* ===================================================================== *)

(** The double quote and the line feed, which a string literal cannot
    hold as they are. *)
Definition dq : string := String (Ascii.ascii_of_nat 34) EmptyString.
Definition nl : string := String (Ascii.ascii_of_nat 10) EmptyString.
Definition quoted (s : string) : string := dq +:+ s +:+ dq.

(** String conversion of a template literal: a string is itself, and a
    value without a conversion throws. *)
Definition to_string (P : Platform) (v : value) : result string :=
  match v with
  | VStr s => Ok s
  | _ => if printable v then Ok (ToString P v) else Throw cannot_convert
  end.

(** [parts.join(sep)]. *)
Fixpoint join (sep : string) (parts : list string) : string :=
  match parts with
  | [] => ""
  | [x] => x
  | x :: r => x +:+ sep +:+ join sep r
  end.

(** [f] called on something that is not a function. *)
Definition not_a_function {A} (what : string) : result A :=
  Throw (OtherError (Some (what +:+ " is not a function"))).

Fixpoint mapM {A B} (f : A -> result B) (l : list A) : result (list B) :=
  match l with
  | [] => Ok []
  | x :: r =>
      match f x with
      | Throw e => Throw e
      | Ok y =>
          match mapM f r with
          | Throw e => Throw e
          | Ok ys => Ok (y :: ys)
          end
      end
  end.

(** [v.map(f)], where [what] is the text of the callee. *)
Definition js_map {B} (what : string) (v : value) (f : value -> result B)
  : result (list B) :=
  match v with
  | VArr l => mapM f l
  | VUndef | VNull => Throw (cannot_read v "map")
  | _ => not_a_function what
  end.

(** [a < b] and [a - b] on numbers. *)
Definition num_lt (a b : number) : bool :=
  match a, b with
  | Fin x, Fin y => negb (Qle_bool y x)
  | Fin _, PosInf | NegInf, Fin _ | NegInf, PosInf => true
  | _, _ => false
  end.

Definition num_sub (a b : number) : number :=
  match a, b with
  | Fin x, Fin y => Fin (Qminus x y)
  | NaN, _ | _, NaN => NaN
  | PosInf, PosInf | NegInf, NegInf => NaN
  | PosInf, _ | _, NegInf => PosInf
  | NegInf, _ | _, PosInf => NegInf
  end.

Definition num_of_nat (n : nat) : number := Fin (inject_Z (Z.of_nat n)).

(** The end index [slice(0, n)] uses on something of length [len]. *)
Definition slice_end (n : number) (len : nat) : nat :=
  match n with
  | NaN | NegInf => 0
  | PosInf => len
  | Fin q =>
      let z := Z.quot (Qnum q) (Zpos (Qden q)) in
      if (z <? 0)%Z then Z.to_nat (Z.max (Z.of_nat len + z) 0)
      else Nat.min (Z.to_nat z) len
  end.

(** [s.split('/')]. *)
Fixpoint split_slash (s : string) : list string :=
  match s with
  | EmptyString => [""]
  | String c r =>
      if Ascii.eqb c "/" then "" :: split_slash r
      else match split_slash r with
           | x :: xs => String c x :: xs
           | [] => [String c ""]
           end
  end.

(** [s.replace(/[-_]/g, ' ')]. *)
Fixpoint dashes_to_spaces (s : string) : string :=
  match s with
  | EmptyString => EmptyString
  | String c r =>
      String (if Ascii.eqb c "-" || Ascii.eqb c "_" then " "%char else c)
             (dashes_to_spaces r)
  end.

(** The text [skip] characters into [s]. *)
Fixpoint drop_chars (skip : nat) (s : string) : string :=
  match skip, s with
  | S k, String _ r => drop_chars k r
  | _, _ => s
  end.

(** Removal of the code fences: every match of three backquotes followed by
    [json] and an optional line feed, or of three backquotes and an
    optional line feed, is deleted. [skip] counts the characters of the
    current match still to delete. *)
Definition fence_length (s : string) : nat :=
  if String.prefix ("```json" +:+ nl) s then 8
  else if String.prefix "```json" s then 7
  else if String.prefix ("```" +:+ nl) s then 4
  else if String.prefix "```" s then 3
  else 0.

Fixpoint strip_fences_from (skip : nat) (s : string) : string :=
  match s with
  | EmptyString => EmptyString
  | String c r =>
      match skip with
      | S k => strip_fences_from k r
      | O =>
          match fence_length s with
          | S k => strip_fences_from k r
          | O => String c (strip_fences_from 0 r)
          end
      end
  end.

Definition strip_fences (s : string) : string := strip_fences_from 0 s.

(** [content.match(/\{[\s\S]*\}/)]: from the first opening brace to the
    last closing brace after it. *)
Fixpoint from_first_brace (s : string) : option string :=
  match s with
  | EmptyString => None
  | String c r => if Ascii.eqb c "{" then Some s else from_first_brace r
  end.

Fixpoint through_last_brace (s : string) : option string :=
  match s with
  | EmptyString => None
  | String c r =>
      match through_last_brace r with
      | Some t => Some (String c t)
      | None => if Ascii.eqb c "}" then Some (String c "") else None
      end
  end.

Definition match_json (s : string) : option string :=
  match from_first_brace s with
  | Some t => through_last_brace t
  | None => None
  end.

(** A chat message object. *)
Definition message (role content : string) : value :=
  VObj [("role", VStr role); ("content", VStr content)].

(* ===================================================================== *)
(** * grok-client.ts: what both versions of GrokClient share *)
(* ===================================================================== *)

Definition half : number := Fin (1 # 2).

Section GrokClient.
Variable E : Env.
Let P := plat E.

Definition prop (v : value) (k : string) : result value :=
  get_prop (str_length P) v k.
Definition opt (v : value) (k : string) : value :=
  get_opt (str_length P) v k.

Definition isAxiosError (e : error) : bool :=
  match e with AxiosError _ _ _ => true | _ => false end.

Definition post (p : string) (b : value) : M value :=
  http E {| method := "POST"; path := p; body := b |}.

(** [chatCompletion], the same text in both versions. *)
Definition chat_key (request : object) : string :=
  JSON_stringify P (VObj (obj_spread [("type", VStr "chat")] request)).

(** The message of the error thrown for an Axios error:
    [error.response?.status], then the message of the API or, when there
    is none, of the Axios error. *)
Definition api_error_text (status : option Z) (apiMessage : value) (msg : string)
  : result string :=
  status <~ to_string P (match status with
                         | Some z => of_Z z
                         | None => VUndef
                         end) ;;
  shown <~ to_string P (or_else apiMessage (VStr msg)) ;;
  Ok ("Grok API Error: " +:+ status +:+ " - " +:+ shown).

Definition chatCompletion (request : object) : M value :=
  let cacheKey := chat_key request in
  cached <- cache_get cacheKey ;;
  if truthy cached then ret cached
  else
    let fullRequest :=
      obj_spread
        [ ("model", or_else (obj_get "model" request) (VStr (model (config E))));
          ("messages", or_else (obj_get "messages" request) (VArr []));
          ("temperature",
            coalesce (obj_get "temperature" request) (VNum (temperature (config E))));
          ("max_tokens",
            coalesce (obj_get "max_tokens" request) (VNum (maxTokens (config E))));
          ("stream", VBool false) ]
        request in
    try_catch
      (data <- limiter_schedule (post "/chat/completions" (VObj fullRequest)) ;;
       cache_set cacheKey data ;;;
       ret data)
      (fun error =>
         match error with
         | AxiosError status apiMessage msg =>
             shown <- lift (api_error_text status apiMessage msg) ;;
             throw (OtherError (Some shown))
         | _ => throw error
         end).

Definition search_key (request : object) : string :=
  JSON_stringify P (VObj (obj_spread [("type", VStr "search")] request)).

(** [response.choices[0]?.message], which throws when [response] or its
    [choices] is [undefined] or [null]. *)
Definition first_message (response : value) : result value :=
  match prop response "choices" with
  | Throw e => Throw e
  | Ok choices =>
      match get_first choices with
      | Throw e => Throw e
      | Ok first => Ok (opt first "message")
      end
  end.

(** [response.choices[0]?.message?.content]. *)
Definition first_content (response : value) : result value :=
  match first_message response with
  | Throw e => Throw e
  | Ok m => Ok (opt m "content")
  end.

(** [testConnection], the same text in both versions. *)
Definition ping_request : object :=
  [ ("messages", VArr [message "user" "Hello, are you working?"]);
    ("max_tokens", of_Z 10) ].

Definition testConnection : M bool :=
  try_catch
    (chatCompletion ping_request ;;;
     ret true)
    (fun _ => ret false).

(** [getModels]; the two versions differ in the two constant lists only.
    The request goes through the axios instance directly, not through
    the limiter. *)
Definition models_call : http_call :=
  {| method := "GET"; path := "/models"; body := VUndef |}.

(** The [try] block of [getModels]. *)
Definition fetch_models (single : list string) : M (list value) :=
  response_data <- http E models_call ;;
  data <- lift (prop response_data "data") ;;
  if nullish data then ret (map VStr single)
  else
    ids <- lift (js_map "response.data.data?.map" data (fun m => prop m "id")) ;;
    ret ids.

Definition getModels_with (single fallback : list string) : M (list value) :=
  try_catch (fetch_models single) (fun _ => ret (map VStr fallback)).

(** The messages [ask] starts from, the same text in both versions. *)
Definition ask_messages (question context systemPrompt : value)
  : result (list value) :=
  user <~ (if truthy context
           then
             context <~ to_string P context ;;
             question <~ to_string P question ;;
             Ok (message "user"
                   ("Context: " +:+ context +:+ nl +:+ nl
                    +:+ "Question: " +:+ question))
           else Ok (VObj [("role", VStr "user"); ("content", question)])) ;;
  Ok ((if truthy systemPrompt
       then [VObj [("role", VStr "system"); ("content", systemPrompt)]]
       else [])
      ++ [user]).

(** [response.choices[0]?.message?.content || 'No response generated']. *)
Definition answer_of (response : value) : result value :=
  match first_content response with
  | Throw e => Throw e
  | Ok c => Ok (or_else c (VStr "No response generated"))
  end.

End GrokClient.

(** The methods of a client, as [index.ts] calls them. *)
Record Client := {
  c_ask : value -> value -> value -> value -> M value;
  c_chatCompletion : object -> M value;
  c_liveSearch : object -> M value;
  c_getModels : M (list value);
  c_testConnection : M bool;
}.

(* ===================================================================== *)
(** * src/grok-client.ts: the client with the simulated-search fallback *)
(* ===================================================================== *)

Module Legacy.
Section Legacy.
Variable E : Env.
Let P := plat E.

(** The prompt of [simulateSearch], for the converted query and
    number of results. *)
Definition prompt_text (query count : string) : string :=
  "I need you to simulate web search results for the query: "
  +:+ quoted query +:+ nl +:+ nl
  +:+ "Please provide "
  +:+ count
  +:+ " realistic search results that someone would find when searching for this topic online."
  +:+ nl +:+ nl
  +:+ "Respond with ONLY valid JSON in this exact format:" +:+ nl
  +:+ "{" +:+ nl
  +:+ "  " +:+ quoted "results" +:+ ": [" +:+ nl
  +:+ "    {" +:+ nl
  +:+ "      " +:+ quoted "title" +:+ ": " +:+ quoted "Title of the webpage" +:+ "," +:+ nl
  +:+ "      " +:+ quoted "url" +:+ ": " +:+ quoted "https://example.com/page" +:+ "," +:+ nl
  +:+ "      " +:+ quoted "snippet" +:+ ": "
  +:+ quoted "Brief description of what this page contains" +:+ "," +:+ nl
  +:+ "      " +:+ quoted "published_date" +:+ ": " +:+ quoted "2024-01-01"
  +:+ " (optional)" +:+ nl
  +:+ "    }" +:+ nl
  +:+ "  ]" +:+ nl
  +:+ "}" +:+ nl +:+ nl
  +:+ "Make sure:" +:+ nl
  +:+ "- URLs are realistic and related to the topic" +:+ nl
  +:+ "- Snippets are informative and relevant" +:+ nl
  +:+ "- No extra text outside the JSON" +:+ nl
  +:+ "- Each result has title, url, and snippet".

Definition searchPrompt (request : object) : result string :=
  query <~ to_string P (obj_get "query" request) ;;
  count <~ to_string P (or_else (obj_get "max_results" request) (of_Z 5)) ;;
  Ok (prompt_text query count).

(** The result the [catch] of [simulateSearch] builds from the query,
    which is converted for the title, for the URL and for the snippet. *)
Definition fallback_result (title url snippet : string) : value :=
  VObj
    [ ("title", VStr ("Search results for: " +:+ title));
      ("url", VStr ("https://www.google.com/search?q="
                    +:+ encodeURIComponent P url));
      ("snippet",
        VStr ("Information about " +:+ snippet
              +:+ " - simulated search result as the live search API is not available.")) ].

Definition fallbackResults (request : object) : result (list value) :=
  title <~ to_string P (obj_get "query" request) ;;
  url <~ to_string P (obj_get "query" request) ;;
  snippet <~ to_string P (obj_get "query" request) ;;
  Ok [fallback_result title url snippet].

Definition searchResponse (results total : value) : value :=
  VObj [("results", results); ("total_results", total); ("search_time", VNum half)].

(** The [try] block of [simulateSearch]. *)
Definition parse_simulated (chatResponse : value) : result value :=
  match first_content E chatResponse with
  | Throw e => Throw e
  | Ok c =>
      match or_else c (VStr ("{" +:+ quoted "results" +:+ ": []}")) with
      | VStr content =>
          let content := str_trim P content in
          let content := strip_fences content in
          let content :=
            match match_json content with
            | Some m => m
            | None => content
            end in
          match JSON_parse P content with
          | None => Throw (OtherError (Some "Unexpected token in JSON"))
          | Some parsed =>
              match prop E parsed "results" with
              | Throw e => Throw e
              | Ok results =>
                  Ok (searchResponse
                        (or_else results (VArr []))
                        (or_else (opt E results "length") (of_Z 0)))
              end
          end
      | _ => not_a_function "content.trim"
      end
  end.

(** The chat completion [simulateSearch] asks for. *)
Definition simulate_request (searchPrompt : string) : object :=
  [ ("messages",
      VArr [ message "system"
               "You are a search results generator. Respond ONLY with valid JSON. Do not include any explanation or additional text.";
             message "user" searchPrompt ]);
    ("temperature", VNum (Fin (1 # 10)));
    ("max_tokens", of_Z 2000) ].

Definition simulateSearch (request : object) : M value :=
  searchPrompt <- lift (searchPrompt request) ;;
  chatResponse <- chatCompletion E (simulate_request searchPrompt) ;;
  try_catch
    (lift (parse_simulated chatResponse))
    (fun parseError =>
       (* the logger call reads [chatResponse.choices[0]?.message?.content] *)
       lift (first_content E chatResponse) ;;;
       fallbackResults <- lift (fallbackResults request) ;;
       ret (searchResponse (VArr fallbackResults)
              (VNum (num_of_nat (length fallbackResults))))).

Definition liveSearch (request : object) : M value :=
  let cacheKey := search_key E request in
  cached <- cache_get cacheKey ;;
  if truthy cached then ret cached
  else
    try_catch
      (data <- limiter_schedule (post E "/search" (VObj request)) ;;
       cache_set cacheKey data ;;;
       ret data)
      (fun error =>
         if isAxiosError error then simulateSearch request
         else throw error).

(** One search result as [ask] shows it to the model. *)
Definition result_context (r : value) : result string :=
  title <~ prop E r "title" ;;
  title <~ to_string P title ;;
  url <~ prop E r "url" ;;
  url <~ to_string P url ;;
  snippet <~ prop E r "snippet" ;;
  snippet <~ to_string P snippet ;;
  Ok ("Title: " +:+ title +:+ nl
      +:+ "URL: " +:+ url +:+ nl
      +:+ "Snippet: " +:+ snippet).

Definition ask (question context systemPrompt options : value) : M value :=
  messages <- lift (ask_messages E question context systemPrompt) ;;
  pushed <-
    (if truthy (opt E options "includeSearch")
     then
       try_catch
         (searchResults <-
            liveSearch [("query", question); ("max_results", of_Z 3)] ;;
          results <- lift (prop E searchResults "results") ;;
          len <- lift (prop E results "length") ;;
          len <- lift (to_number P len) ;;
          if num_lt (Fin 0) len
          then
            parts <- lift (js_map "searchResults.results.map" results result_context) ;;
            ret [message "system"
                   ("Recent search results for context:" +:+ nl +:+ nl
                    +:+ join (nl +:+ nl) parts)]
          else ret [])
         (fun searchError => ret [])
     else ret []) ;;
  response <-
    chatCompletion E
      [ ("messages", VArr (messages ++ pushed));
        ("model", opt E options "model");
        ("temperature", opt E options "temperature");
        ("max_tokens", opt E options "maxTokens") ] ;;
  lift (answer_of E response).

Definition getModels : M (list value) :=
  getModels_with E
    ["grok-4"]
    ["grok-4-1-fast-reasoning"; "grok-4-1-fast-non-reasoning";
     "grok-code-fast-1"; "grok-4"; "grok-3"].

Definition client : Client :=
  {| c_ask := ask;
     c_chatCompletion := chatCompletion E;
     c_liveSearch := liveSearch;
     c_getModels := getModels;
     c_testConnection := testConnection E |}.

End Legacy.
End Legacy.

(* ===================================================================== *)
(** * grok-client.ts with agentic search: search through [search_parameters] *)
(* ===================================================================== *)

Module Current.
Section Current.
Variable E : Env.
Let P := plat E.

(** [new URL(url)], which throws on what is not a URL. *)
Definition new_URL (url : value) : result (string * string) :=
  url <~ to_string P url ;;
  match URL_parse P url with
  | Some u => Ok u
  | None => Throw (OtherError (Some "Invalid URL"))
  end.

Definition extractTitleFromUrl (url : value) : string :=
  match new_URL url with
  | Ok (hostname, pathname) =>
      let segments :=
        List.filter (fun s => negb (String.eqb s "")) (split_slash pathname) in
      let path := List.last segments hostname in
      substring P 0 100 (dashes_to_spaces path)
  | Throw _ => "Search Result"
  end.

(** [content.substring(0, n)]. *)
Definition content_substring (content : value) (n : nat) : result string :=
  match content with
  | VStr s => Ok (substring P 0 n s)
  | VUndef | VNull => Throw (cannot_read content "substring")
  | _ => not_a_function "content.substring"
  end.

(** The object pushed for one URL. *)
Definition url_result (content url : value) : result value :=
  let title := extractTitleFromUrl url in
  match content_substring content 200 with
  | Throw e => Throw e
  | Ok snippet =>
      match new_URL url with
      | Throw e => Throw e
      | Ok (hostname, _) =>
          Ok (VObj [ ("title", VStr title); ("url", url);
                     ("snippet", VStr snippet); ("source", VStr hostname) ])
      end
  end.

(** What [for (const url of citations.slice(0, limit))] iterates over.
    A string is sliced and iterated character by character; [slice]
    converts [limit] to a number. *)
Definition citations_slice (citations limit : value) : result (list value) :=
  match citations with
  | VArr l =>
      limit <~ to_number P limit ;;
      Ok (firstn (slice_end limit (length l)) l)
  | VStr s =>
      limit <~ to_number P limit ;;
      Ok (map VStr
            (code_points P (substring P 0 (slice_end limit (str_length P s)) s)))
  | VUndef | VNull => Throw (cannot_read citations "slice")
  | _ => not_a_function "citations.slice"
  end.

(** [citations.includes(url)] for a string [url]. *)
Definition citations_includes (citations : value) (url : string) : result bool :=
  match citations with
  | VArr l =>
      Ok (existsb (fun c => match c with
                            | VStr s => String.eqb s url
                            | _ => false
                            end) l)
  | VStr s => Ok (includes url s)
  | VUndef | VNull => Throw (cannot_read citations "includes")
  | _ => not_a_function "citations.includes"
  end.

(** The second loop: the URLs found in the text that no citation covers. *)
Fixpoint found_results (content citations : value) (urls : list string)
  : result (list value) :=
  match urls with
  | [] => Ok []
  | url :: rest =>
      match citations_includes citations url with
      | Throw e => Throw e
      | Ok true => found_results content citations rest
      | Ok false =>
          match url_result content (VStr url) with
          | Throw e => Throw e
          | Ok r =>
              match found_results content citations rest with
              | Throw e => Throw e
              | Ok rs => Ok (r :: rs)
              end
          end
      end
  end.

Definition parseSearchResults (content citations maxResults : value)
  : result (list value) :=
  let limit := or_else maxResults (of_Z 10) in
  (* from the citations *)
  cited <~ (if truthy citations
            then
              len <~ to_number P (opt E citations "length") ;;
              Ok (num_lt (Fin 0) len)
            else Ok false) ;;
  results <~ (if cited : bool
              then
                urls <~ citations_slice citations limit ;;
                mapM (url_result content) urls
              else Ok []) ;;
  (* from the URLs in the text *)
  bound <~ to_number P limit ;;
  results <~ (if num_lt (num_of_nat (length results)) bound
              then
                match content with
                | VStr s =>
                    let foundUrls := match_urls P s in
                    let n := slice_end (num_sub bound (num_of_nat (length results)))
                               (length foundUrls) in
                    more <~ found_results content citations (firstn n foundUrls) ;;
                    Ok (results ++ more)
                | VUndef | VNull => Throw (cannot_read content "match")
                | _ => not_a_function "content.match"
                end
              else Ok results) ;;
  (* the generic result *)
  match results with
  | [] =>
      snippet <~ content_substring content 300 ;;
      Ok [ VObj [ ("title", VStr "Search Result");
                  ("url", VStr "https://grok.com");
                  ("snippet", VStr snippet);
                  ("source", VStr "grok") ] ]
  | _ => Ok results
  end.

Definition from_date (request : object) : value :=
  let time_filter := obj_get "time_filter" request in
  if is_str time_filter "day" then VStr (date_offset P 1)
  else if is_str time_filter "week" then VStr (date_offset P 7)
  else if is_str time_filter "month" then VStr (date_offset P 30)
  else if is_str time_filter "year" then VStr (date_offset P 365)
  else VUndef.

(** The chat completion [liveSearch] turns the search into. *)
Definition search_request (request : object) : result object :=
  query <~ to_string P (obj_get "query" request) ;;
  Ok
  [ ("messages", VArr [message "user" ("Search for: " +:+ query)]);
    ("search_parameters",
      VObj [ ("mode", VStr "always");
             ("return_citations", VBool true);
             ("sources",
               if truthy (obj_get "include_news" request)
               then VArr [VStr "web"; VStr "news"]
               else VArr [VStr "web"]);
             ("from_date", from_date request) ]);
    ("temperature", VNum (Fin (3 # 10)));
    ("max_tokens", of_Z 2000) ].

Definition liveSearch (request : object) : M value :=
  let cacheKey := search_key E request in
  cached <- cache_get cacheKey ;;
  if truthy cached then ret cached
  else
    try_catch
      (chatRequest <- lift (search_request request) ;;
       chatResponse <- chatCompletion E chatRequest ;;
       msg <- lift (first_message E chatResponse) ;;
       let content := or_else (opt E msg "content") (VStr "") in
       let citations := or_else (opt E msg "citations") (VArr []) in
       results <-
         lift (parseSearchResults content citations (obj_get "max_results" request)) ;;
       let response :=
         VObj [ ("results", VArr results);
                ("total_results", VNum (num_of_nat (length results)));
                ("search_time", VNum half) ] in
       cache_set cacheKey response ;;;
       ret response)
      (fun error => throw (ExternalServiceError "Live search failed" 500)).

Definition ask (question context systemPrompt options : value) : M value :=
  messages <- lift (ask_messages E question context systemPrompt) ;;
  let chatRequest : object :=
    [ ("messages", VArr messages);
      ("model", opt E options "model");
      ("temperature", opt E options "temperature");
      ("max_tokens", opt E options "maxTokens") ] in
  let chatRequest :=
    if truthy (opt E options "includeSearch")
    then obj_set "search_parameters"
           (VObj [ ("mode", VStr "always");
                   ("return_citations", VBool true);
                   ("sources", VArr [VStr "web"; VStr "news"]) ])
           chatRequest
    else chatRequest in
  response <- chatCompletion E chatRequest ;;
  lift (answer_of E response).

Definition getModels : M (list value) :=
  getModels_with E
    ["grok-4.1-fast"]
    ["grok-4.1-fast"; "grok-4-1-fast-reasoning"; "grok-4-1-fast-non-reasoning";
     "grok-code-fast-1"; "grok-4"].

Definition client : Client :=
  {| c_ask := ask;
     c_chatCompletion := chatCompletion E;
     c_liveSearch := liveSearch;
     c_getModels := getModels;
     c_testConnection := testConnection E |}.

End Current.
End Current.

(* ===================================================================== *)
(** * Schemas (zod) *)
(* ===================================================================== *)

Module Zod.

(** Modelled from the spec: the third-party schema library, for the
    combinators [index.ts] uses. [z_string true] is [z.string().min(1)];
    [z_number lo hi int] is [z.number()] with the optional [.min(lo)],
    [.max(hi)] and [.int()]. An object schema accepts objects only (not
    arrays, not [null]), ignores the keys it does not name and yields the
    parsed value of each key it names. *)
Unset Elimination Schemes.
Inductive schema :=
| z_string (min1 : bool)
| z_number (lo hi : option Q) (int : bool)
| z_boolean
| z_enum (options : list string)
| z_optional (s : schema)
| z_array (s : schema)
| z_object (shape : list (string * schema)).
Set Elimination Schemes.

Definition number_ok (lo hi : option Q) (int : bool) (n : number) : bool :=
  match n with
  | NaN => false
  | Fin q =>
      match lo with Some l => Qle_bool l q | None => true end
      && match hi with Some h => Qle_bool q h | None => true end
      && (negb int || is_integer n)
  | PosInf => match hi with Some _ => false | None => negb int end
  | NegInf => match lo with Some _ => false | None => negb int end
  end.

(** The elements of an array and the fields of an object are parsed one
    by one, with the parser of the element or field schema. *)
Fixpoint parse_all (parse : value -> option value) (l : list value)
  : option (list value) :=
  match l with
  | [] => Some []
  | x :: r =>
      match parse x, parse_all parse r with
      | Some y, Some ys => Some (y :: ys)
      | _, _ => None
      end
  end.

Fixpoint parse_fields (parse : schema -> value -> option value) (o : object)
    (shape : list (string * schema)) : option object :=
  match shape with
  | [] => Some []
  | (k, s) :: r =>
      match parse s (obj_get k o), parse_fields parse o r with
      | Some y, Some ys => Some ((k, y) :: ys)
      | _, _ => None
      end
  end.

(** [schema.safeParse(v)]: [Some data] on success, [None] when there are
    issues. *)
Fixpoint safeParse (s : schema) (v : value) : option value :=
  match s with
  | z_string min1 =>
      match v with
      | VStr x => if min1 && String.eqb x "" then None else Some v
      | _ => None
      end
  | z_number lo hi int =>
      match v with
      | VNum n => if number_ok lo hi int n then Some v else None
      | _ => None
      end
  | z_boolean => match v with VBool _ => Some v | _ => None end
  | z_enum options =>
      match v with
      | VStr x => if existsb (String.eqb x) options then Some v else None
      | _ => None
      end
  | z_optional s' => match v with VUndef => Some VUndef | _ => safeParse s' v end
  | z_array s' =>
      match v with
      | VArr l =>
          match parse_all (safeParse s') l with
          | Some ys => Some (VArr ys)
          | None => None
          end
      | _ => None
      end
  | z_object shape =>
      match v with
      | VObj o =>
          match parse_fields safeParse o shape with
          | Some data => Some (VObj data)
          | None => None
          end
      | _ => None
      end
  end.

End Zod.
Import Zod.

(* ===================================================================== *)
(** * index.ts: the request pipeline *)
(* ===================================================================== *)

(** The response envelope [{ content: [{ type: 'text', text }], metrics? }]. *)
Record content_item := { type : string; text : value }.
Record envelope := { content : list content_item; metrics : option string }.

Definition text_envelope (t : value) : envelope :=
  {| content := [ {| type := "text"; text := t |} ]; metrics := None |}.

(** [crypto.timingSafeEqual] on buffers of equal length: the differences of
    all the bytes are accumulated, whatever the bytes are. *)
Fixpoint byte_diff (a b : list ascii) (acc : N) : N :=
  match a, b with
  | x :: a', y :: b' =>
      byte_diff a' b' (N.lor acc (N.lxor (N_of_ascii x) (N_of_ascii y)))
  | _, _ => acc
  end.

Definition timingSafeEqual (a b : list ascii) : bool :=
  N.eqb (byte_diff a b 0) 0.

(** The schemas of the three tools that take arguments. *)
Definition grokAskSchema : schema :=
  z_object
    [ ("question", z_string true);
      ("context", z_optional (z_string false));
      ("system_prompt", z_optional (z_string false));
      ("temperature", z_optional (z_number (Some 0%Q) (Some 1%Q) false));
      ("max_tokens", z_optional (z_number (Some 1%Q) (Some 8000%Q) false));
      ("include_search", z_optional z_boolean);
      ("model", z_optional (z_string false)) ].

Definition grokChatSchema : schema :=
  z_object
    [ ("messages",
        z_array (z_object [ ("role", z_enum ["system"; "user"; "assistant"]);
                            ("content", z_string false) ]));
      ("model", z_optional (z_string false));
      ("temperature", z_optional (z_number (Some 0%Q) (Some 1%Q) false));
      ("max_tokens", z_optional (z_number (Some 1%Q) (Some 8000%Q) false)) ].

Definition grokSearchSchema : schema :=
  z_object
    [ ("query", z_string false);
      ("max_results", z_optional (z_number None None true));
      ("include_images", z_optional z_boolean);
      ("include_news", z_optional z_boolean);
      ("time_filter", z_optional (z_enum ["day"; "week"; "month"; "year"; "all"])) ].

(** The names [handleToolCall] has a case for. *)
Definition registered_tools : list string :=
  ["grok_ask"; "grok_chat"; "grok_search"; "grok_health"; "grok_models";
   "grok_test_connection"].

(** The two prefixes of the connection messages, byte for byte as the
    source file has them. *)
Definition mark_ok : string :=
  string_of_list_ascii (map Ascii.ascii_of_nat [195; 162; 197; 147; 226; 128; 166]).
Definition mark_failed : string :=
  string_of_list_ascii (map Ascii.ascii_of_nat [195; 162; 197; 146]).

(** [error.message], when the thrown value has one. *)
Definition error_message (e : error) : option string :=
  match e with
  | ValidationError m | AuthError m | ExternalServiceError m _ => Some m
  | AxiosError _ _ m => Some m
  | OtherError m => m
  end.

Definition recognised (e : error) : bool :=
  match e with
  | ValidationError _ | AuthError _ | ExternalServiceError _ _ => true
  | _ => false
  end.

Definition handleError (error : error) : envelope :=
  let message := "Internal server error" in
  let message :=
    if recognised error
    then match error_message error with Some m => m | None => message end
    else match error_message error with
         | Some m => if String.eqb m "" then message else m
         | None => message
         end in
  text_envelope (VStr ("Error: " +:+ message)).

Section Server.
Variable E : Env.
Variable grokClient : Client.
Let P := plat E.

(** [Buffer.from(v)]. *)
Definition Buffer_of (v : value) : result (list ascii) :=
  match v with
  | VStr s => Ok (list_ascii_of_string s)
  | _ =>
      match Buffer_from P v with
      | Some s => Ok (list_ascii_of_string s)
      | None => Throw (OtherError (Some "The first argument must be of type string or an instance of Buffer, ArrayBuffer, or Array or an Array-like Object."))
      end
  end.

Definition unauthorized : error :=
  AuthError "Unauthorized: invalid or missing auth token".

(** [request?.params?.auth || request?.auth]. *)
Definition auth_token (request : value) : value :=
  or_else (opt E (opt E request "params") "auth") (opt E request "auth").

Definition checkAuth (request : value) : result unit :=
  let token := auth_token request in
  match SHARED_SECRET E with
  | Some secret =>
      if negb (truthy token) || String.eqb secret "" then Throw unauthorized
      else
        match Buffer_of token with
        | Throw e => Throw e
        | Ok tokenBuf =>
            let secretBuf := list_ascii_of_string secret in
            if negb (Nat.eqb (length tokenBuf) (length secretBuf))
               || negb (timingSafeEqual tokenBuf secretBuf)
            then Throw unauthorized
            else Ok tt
        end
  | None => Throw unauthorized
  end.

(** The metric sinks. [inc()] is called without labels, so the sample
    with the empty label set is the one that grows; the timer likewise
    observes without labels. *)
Definition bump (m : gmap labels nat) (l : labels) : gmap labels nat :=
  <[ l := S (default 0 (m !! l)) ]> m.

Definition startTimer : M Z := fun st => (Ok (now st), st).
Definition end_timer (start : Z) : M unit :=
  fun st =>
    (Ok tt,
     set_latencyHistogram (latencyHistogram st ++ [([], now st - start)%Z]) st).
Definition requestCounter_inc : M unit :=
  fun st => (Ok tt, set_requestCounter (bump (requestCounter st) []) st).
Definition errorCounter_inc : M unit :=
  fun st => (Ok tt, set_errorCounter (bump (errorCounter st) []) st).

(** The wrappers that turn what a client method throws into an
    [ExternalServiceError]. *)
Definition wrap {A} (what : string) (m : M A) : M A :=
  try_catch m
    (fun err =>
       throw (ExternalServiceError
                (match error_message err with
                 | Some msg =>
                     if String.eqb msg "" then what +:+ " failed"
                     else what +:+ " failed: " +:+ msg
                 | None => what +:+ " failed"
                 end) 502)).

Definition safeAsk (question context systemPrompt options : value) : M value :=
  wrap "Grok ask" (c_ask grokClient question context systemPrompt options).
Definition safeChat (args : object) : M value :=
  wrap "Grok chat" (c_chatCompletion grokClient args).
Definition safeSearch (args : object) : M value :=
  wrap "Grok search" (c_liveSearch grokClient args).

(** One line group of the formatted search results. *)
Definition format_result (index : nat) (r : value) : result string :=
  number <~ to_string P (of_Z (Z.of_nat index + 1)) ;;
  title <~ prop E r "title" ;;
  title <~ to_string P title ;;
  url <~ to_string P (opt E r "url") ;;
  snippet <~ to_string P (opt E r "snippet") ;;
  published <~ (if truthy (opt E r "published_date")
                then
                  date <~ to_string P (opt E r "published_date") ;;
                  Ok (nl +:+ "Published: " +:+ date)
                else Ok "") ;;
  Ok (number +:+ ". " +:+ title +:+ nl +:+ url +:+ nl +:+ snippet +:+ published).

Fixpoint format_results (index : nat) (l : list value) : result (list string) :=
  match l with
  | [] => Ok []
  | r :: rest =>
      match format_result index r with
      | Throw e => Throw e
      | Ok x =>
          match format_results (S index) rest with
          | Throw e => Throw e
          | Ok xs => Ok (x :: xs)
          end
      end
  end.

(** The coercion of [max_results] that precedes the validation of
    [grok_search]. *)
Definition coerce_max_results (safeArgs : value) : result value :=
  match prop E safeArgs "max_results" with
  | Throw e => Throw e
  | Ok m =>
      if truthy m
      then match safeArgs with
           | VObj o =>
               n <~ to_number P m ;;
               Ok (VObj (obj_set "max_results" (VNum (floor n)) o))
           | _ => Ok safeArgs
           end
      else Ok safeArgs
  end.

Definition field (data : value) (k : string) : value := opt E data k.

(** The request the [grok_search] case passes to the client, and the
    answer it makes of what the client returns. *)
Definition search_args (data : value) : object :=
  [ ("query", field data "query");
    ("max_results", field data "max_results");
    ("include_images", field data "include_images");
    ("include_news", field data "include_news");
    ("time_filter", field data "time_filter") ].

Definition search_answer (data searchResults : value) : result envelope :=
  results <~ prop E searchResults "results" ;;
  formatted <~ match results with
               | VArr l => format_results 0 l
               | VUndef | VNull => Throw (cannot_read results "map")
               | _ => not_a_function "searchResults.results.map"
               end ;;
  query <~ to_string P (field data "query") ;;
  total <~ to_string P (opt E searchResults "total_results") ;;
  time <~ to_string P (opt E searchResults "search_time") ;;
  Ok (text_envelope
        (VStr ("Search Results for " +:+ quoted query
               +:+ " (" +:+ total +:+ " results found in " +:+ time
               +:+ "s):" +:+ nl +:+ nl +:+ join (nl +:+ nl) formatted))).

(** The text of the [grok_models] case. *)
Definition models_text (models : list value) : result string :=
  lines <~ mapM (fun model => shown <~ to_string P model ;; Ok ("- " +:+ shown))
             models ;;
  Ok ("Available Grok models:" +:+ nl +:+ join nl lines).

(** The [switch] of [handleToolCall] on the sanitized arguments. *)
Definition dispatch (start : Z) (name safeArgs : value) : M envelope :=
  if is_str name "grok_ask" then
      match safeParse grokAskSchema safeArgs with
      | None => throw (ValidationError "Invalid input for grok_ask")
      | Some data =>
          response <-
            safeAsk (field data "question") (field data "context")
              (field data "system_prompt")
              (VObj [ ("temperature", field data "temperature");
                      ("maxTokens", field data "max_tokens");
                      ("includeSearch", field data "include_search");
                      ("model", field data "model") ]) ;;
          end_timer start ;;;
          ret (text_envelope response)
      end
  else if is_str name "grok_chat" then
      match safeParse grokChatSchema safeArgs with
      | None => throw (ValidationError "Invalid input for grok_chat")
      | Some data =>
          response <-
            safeChat [ ("messages", field data "messages");
                       ("model", field data "model");
                       ("temperature", field data "temperature");
                       ("max_tokens", field data "max_tokens") ] ;;
          assistantMessage <- lift (answer_of E response) ;;
          end_timer start ;;;
          ret (text_envelope assistantMessage)
      end
  else if is_str name "grok_search" then
      (safeArgs <- lift (coerce_max_results safeArgs) ;;
      match safeParse grokSearchSchema safeArgs with
      | None => throw (ValidationError "Invalid input for grok_search")
      | Some data =>
          searchResults <- safeSearch (search_args data) ;;
          (* no call of the timer here *)
          lift (search_answer data searchResults)
      end)
  else if is_str name "grok_health" then
      (end_timer start ;;;
       fun st =>
         (Ok {| content := [ {| type := "text";
                                text := VStr "OK: Grok 4 MCP Server healthy" |} ];
                metrics := Some (register_metrics E st) |}, st))
  else if is_str name "grok_models" then
      (models <- c_getModels grokClient ;;
       end_timer start ;;;
       shown <- lift (models_text models) ;;
       ret (text_envelope (VStr shown)))
  else if is_str name "grok_test_connection" then
      (isConnected <- c_testConnection grokClient ;;
      end_timer start ;;;
      ret (text_envelope
             (VStr (if isConnected : bool
                    then mark_ok +:+ " Grok API connection successful! Ready to use Grok 4."
                    else mark_failed +:+ " Grok API connection failed. Please check your API key and configuration."))))
  else
      (end_timer start ;;;
       name <- lift (to_string P name) ;;
       ret (text_envelope (VStr ("Error: Unknown tool: " +:+ name)))).

(** The body of the [try]: the authentication check is not part of it
    (the call is commented out, "Auth check removed for open access"). *)
Definition handle_body (start : Z) (request : value) : M envelope :=
  params <- lift (prop E request "params") ;;
  if nullish params
  then throw (OtherError (Some
         ("Cannot destructure property 'name' of 'request.params' as it is "
          +:+ (match params with VNull => "null" | _ => "undefined" end) +:+ ".")))
  else
    let name := opt E params "name" in
    let args := opt E params "arguments" in
    let safeArgs := sanitize args in
    dispatch start name safeArgs.

Definition handleToolCall (request : value) : M envelope :=
  start <- startTimer ;;
  requestCounter_inc ;;;
  try_catch
    (handle_body start request)
    (fun error =>
       errorCounter_inc ;;;
       end_timer start ;;;
       ret (handleError error)).

End Server.

(** A tool-call request as the transport delivers it, and one that also
    presents an [auth] token. *)
Definition tool_request (name args : value) : value :=
  VObj [("params", VObj [("name", name); ("arguments", args)])].

Definition tool_request_auth (token name args : value) : value :=
  VObj [("params", VObj [("name", name); ("arguments", args); ("auth", token)])].


(** The state in which the body of the [try] starts: the request has been
    counted. *)
Definition counted (st : state) : state :=
  set_requestCounter (<[ [] := S (default 0 (requestCounter st !! [])) ]> (requestCounter st)) st.

(** The state in which the [catch] leaves: the error has been counted and
    the latency observed. *)
Definition failed (start : Z) (st : state) : state :=
  set_latencyHistogram (latencyHistogram st ++ [([], now st - start)%Z])
    (set_errorCounter (<[ [] := S (default 0 (errorCounter st !! [])) ]> (errorCounter st)) st).

(** The message the error response shows, in the words of the amended
    error-mapping rule: the message of a recognised error, or of any other
    error that has a non-empty one; the generic message otherwise. *)
Definition shown_message (e : error) : string :=
  match error_message e with
  | Some m =>
      if recognised e || negb (String.eqb m "") then m
      else "Internal server error"
  | None => "Internal server error"
  end.

(* ===================================================================== *)
(** * A concrete platform and concrete upstreams, to run the code on *)
(* ===================================================================== *)

Module Sample.

(** The sample platform agrees with the built-ins on the inputs the
    examples below use: texts without white space at their ends, without
    URLs, and that are not JSON. A plain serializer stands for
    [JSON.stringify] and for the string conversion; integers are written in
    decimal, other numbers as a fraction. *)
Definition show_Z (z : Z) : string :=
  NilZero.string_of_int (Z.to_int z).

Definition show_number (n : number) : string :=
  match n with
  | Fin q =>
      if is_integer n then show_Z (Qfloor q)
      else show_Z (Qnum q) +:+ "/" +:+ show_Z (Zpos (Qden q))
  | NaN => "NaN"
  | PosInf => "Infinity"
  | NegInf => "-Infinity"
  end.

Fixpoint show (v : value) : string :=
  match v with
  | VUndef => "undefined"
  | VNull => "null"
  | VBool b => if b then "true" else "false"
  | VNum n => show_number n
  | VStr s => quoted s
  | VArr l => "[" +:+ join "," (map show l) +:+ "]"
  | VObj kvs =>
      "{" +:+ join "," (map (fun kv => quoted (fst kv) +:+ ":" +:+ show (snd kv)) kvs)
      +:+ "}"
  end.

Definition platform : Platform :=
  {| StringToNumber := fun _ => NaN;
     ToString := show;
     JSON_stringify := show;
     JSON_parse := fun _ => None;
     str_trim := fun s => s;
     str_length := String.length;
     code_points := fun s => map (fun c => String c "") (list_ascii_of_string s);
     Buffer_from := fun _ => None;
     substring := String.substring;
     encodeURIComponent := fun s => s;
     URL_parse := fun _ => None;
     match_urls := fun _ => [];
     date_offset := fun _ => "2025-01-01" |}.

Definition grokConfig : GrokConfig :=
  {| apiKey := "dummy-key-for-testing";
     baseUrl := "https://api.x.ai/v1";
     model := "grok-4.1-fast";
     temperature := Fin (7 # 10);
     maxTokens := Fin 4000 |}.

Definition env (up : list http_call -> http_call -> http_reply)
  (secret : option string) : Env :=
  {| plat := platform;
     upstream := up;
     config := grokConfig;
     SHARED_SECRET := secret;
     register_metrics := fun _ => "" |}.

(** An upstream that cannot be reached, one that answers every chat
    completion with the same text and has no other endpoint, and one that
    answers everything with an empty object. *)
Definition unreachable : list http_call -> http_call -> http_reply :=
  fun _ _ => {| delay := 10; outcome := Throw (AxiosError None VUndef "connect ECONNREFUSED") |}.

Definition chat_reply (content : string) : value :=
  VObj [("choices",
          VArr [VObj [("index", of_Z 0);
                      ("message", VObj [("role", VStr "assistant");
                                        ("content", VStr content)])]])].

Definition chat_only (content : string) : list http_call -> http_call -> http_reply :=
  fun _ c =>
    if String.eqb (path c) "/chat/completions"
    then {| delay := 10; outcome := Ok (chat_reply content) |}
    else {| delay := 10;
            outcome := Throw (AxiosError (Some 404%Z) VUndef
                                "Request failed with status code 404") |}.

Definition init : state :=
  {| now := 0; cache := []; last_launch := None; http_log := [];
     requestCounter := ∅; errorCounter := ∅; latencyHistogram := [] |}.

End Sample.

(* ===================================================================== *)
(** * index.ts: loadEnvironment *)
(* ===================================================================== *)

(** [s.split(sep)] for a separator of one character. *)
Fixpoint split_on (sep : ascii) (s : string) : list string :=
  match s with
  | EmptyString => [""]
  | String c r =>
      if Ascii.eqb c sep then "" :: split_on sep r
      else match split_on sep r with
           | x :: xs => String c x :: xs
           | [] => [String c ""]
           end
  end.

(** The replacement that takes one quote (double or single) off the start
    of a value and one off its end. *)
Definition is_quote (c : ascii) : bool :=
  Ascii.eqb c (Ascii.ascii_of_nat 34) || Ascii.eqb c "'".

Fixpoint drop_last_quote (s : string) : string :=
  match s with
  | EmptyString => EmptyString
  | String c r =>
      match r with
      | EmptyString => if is_quote c then EmptyString else s
      | _ => String c (drop_last_quote r)
      end
  end.

Definition strip_quotes (s : string) : string :=
  drop_last_quote
    (match s with
     | String c r => if is_quote c then r else s
     | EmptyString => s
     end).

(** The names every object inherits; [process.env[key]] is truthy for
    them although no such variable is set. *)
Definition inherited : list string :=
  ["constructor"; "__defineGetter__"; "__defineSetter__"; "hasOwnProperty";
   "__lookupGetter__"; "__lookupSetter__"; "isPrototypeOf";
   "propertyIsEnumerable"; "toString"; "valueOf"; "__proto__"; "toLocaleString"].

(** [if (!process.env[key]) process.env[key] = value]. *)
Definition set_if_unset (key value : string) (env : gmap string string)
  : gmap string string :=
  match env !! key with
  | Some v => if String.eqb v "" then <[ key := value ]> env else env
  | None => if existsb (String.eqb key) inherited then env else <[ key := value ]> env
  end.

(** The body of the loop over the lines of the file. *)
Definition load_line (P : Platform) (env : gmap string string) (line : string)
  : gmap string string :=
  let trimmed := str_trim P line in
  if negb (String.eqb trimmed "") && negb (String.prefix "#" trimmed)
  then
    match split_on "=" trimmed with
    | key :: valueParts =>
        if negb (String.eqb key "") && negb (Nat.eqb (length valueParts) 0)
        then set_if_unset key (strip_quotes (join "=" valueParts)) env
        else env
    | [] => env
    end
  else env.

(** [loadEnvironment], on the variables of the process; [file] is the
    content of the [.env] file, [None] when there is none or it cannot be
    read. *)
Definition loadEnvironment (P : Platform) (file : option string)
    (env : gmap string string) : gmap string string :=
  let env := set_if_unset "DOTENV_CONFIG_QUIET" "true" env in
  match file with
  | Some envContent =>
      fold_left (load_line P) (split_on (Ascii.ascii_of_nat 10) envContent) env
  | None => env
  end.

(* ===================================================================== *)
(** * The vocabulary of the properties *)
(* ===================================================================== *)

(** The five characters the specification names. *)
Definition forbidden : list ascii :=
  ["<"; ">"; Ascii.ascii_of_nat 34; "'"; "`"]%char.

(** A tree is clean when no string value holds a forbidden character and
    no key starts with a dollar sign or contains [__proto__]. *)
Fixpoint is_clean (v : value) : bool :=
  match v with
  | VStr s =>
      forallb (fun c => negb (existsb (Ascii.eqb c) forbidden)) (list_ascii_of_string s)
  | VArr l => forallb is_clean l
  | VObj kvs =>
      forallb (fun kv => negb (String.prefix "$" (fst kv))
                         && negb (includes "__proto__" (fst kv))
                         && is_clean (snd kv)) kvs
  | _ => true
  end.


(** One round of the loop of [sanitize] over the keys of an object. *)
Definition sanitize_step (clean : object) (kv : string * value) : object :=
  if dropped (fst kv) then clean
  else obj_set (fst kv) (sanitize (snd kv)) clean.

(** The message of the error response as the specification has it: the
    error's own message for the three recognised kinds, the generic message
    for everything else. *)
Definition specified_message (e : error) : string :=
  if recognised e then default "" (error_message e)
  else "Internal server error".

Definition error_mapping_as_specified : Prop :=
  forall E grokClient request st e st1,
    handle_body E grokClient (now st) request (counted st) = (Throw e, st1) ->
    fst (handleToolCall E grokClient request st)
    = Ok (text_envelope (VStr ("Error: " +:+ specified_message e))).


(** A search response with at least one result. *)
Definition has_results (r : result value) : Prop :=
  exists response x l, r = Ok response /\ obj_get "results"
    (match response with VObj o => o | _ => [] end) = VArr (x :: l).

(** The fallback as the specification has it: when the upstream throws,
    [liveSearch] still returns a response with a non-empty results array. *)
Definition search_fallback_as_specified (liveSearch : Env -> object -> M value)
  : Prop :=
  forall E request st,
    (forall history call, exists e, outcome (upstream E history call) = Throw e) ->
    has_results (fst (liveSearch E request st)).

(** The chat completion the [grok_chat] case asks for. *)
Definition chat_args (E : Env) (data : value) : object :=
  [ ("messages", field E data "messages");
    ("model", field E data "model");
    ("temperature", field E data "temperature");
    ("max_tokens", field E data "max_tokens") ].


(** The schema of [grok_search] without [max_results]. *)
Definition grokSearchSchema_rest : schema :=
  z_object
    [ ("query", z_string false);
      ("include_images", z_optional z_boolean);
      ("include_news", z_optional z_boolean);
      ("time_filter", z_optional (z_enum ["day"; "week"; "month"; "year"; "all"])) ].

(** [max_results] as the integer schema wants it: absent or an integer. *)
Definition integer_or_absent (v : value) : Prop :=
  v = VUndef \/ exists n, v = VNum n /\ is_integer n = true.

(** [max_results] as the specification wants it. *)
Definition positive_integer_or_absent (v : value) : Prop :=
  v = VUndef \/ exists z, (0 < z)%Z /\ v = of_Z z.

(** Validation as the specification has it: a request whose other fields
    are valid is accepted exactly when its coerced [max_results] is a
    positive integer (or absent). *)
Definition max_results_as_specified : Prop :=
  forall E o coerced,
    coerce_max_results E (VObj o) = Ok (VObj coerced) ->
    is_Some (safeParse grokSearchSchema_rest (VObj coerced)) ->
    (is_Some (safeParse grokSearchSchema (VObj coerced))
     <-> positive_integer_or_absent (obj_get "max_results" coerced)).

(** What [sanitize] makes of the entries of an object whose keys are
    distinct: the entries with a dropped key are left out, the others keep
    their key and their place and have their value sanitized. *)
Definition kept_entries (kvs : object) : object :=
  map (fun kv => (fst kv, sanitize (snd kv)))
    (List.filter (fun kv => negb (dropped (fst kv))) kvs).

(** The keys of every object inside a tree are distinct, as they are in
    every object JavaScript builds. *)
Fixpoint distinct_keys (v : value) : Prop :=
  match v with
  | VArr l =>
      (fix all (l : list value) : Prop :=
         match l with
         | [] => True
         | x :: r => distinct_keys x /\ all r
         end) l
  | VObj kvs =>
      NoDup (map fst kvs)
      /\ (fix all (kvs : list (string * value)) : Prop :=
            match kvs with
            | [] => True
            | kv :: r => distinct_keys (snd kv) /\ all r
            end) kvs
  | _ => True
  end.

(** The request [chatCompletion] posts on a cache miss: the defaults,
    with the properties of the request assigned over them. *)
Definition full_request (E : Env) (request : object) : object :=
  obj_spread
    [ ("model", or_else (obj_get "model" request) (VStr (model (config E))));
      ("messages", or_else (obj_get "messages" request) (VArr []));
      ("temperature",
        coalesce (obj_get "temperature" request) (VNum (temperature (config E))));
      ("max_tokens",
        coalesce (obj_get "max_tokens" request) (VNum (maxTokens (config E))));
      ("stream", VBool false) ]
    request.

Definition chat_call (E : Env) (request : object) : http_call :=
  {| method := "POST"; path := "/chat/completions";
     body := VObj (full_request E request) |}.

(** What [chatCompletion] throws for what the upstream call threw: for
    an Axios error the Error it makes, or the TypeError of making its
    message. *)
Definition grok_api_error (E : Env) (e : error) : error :=
  match e with
  | AxiosError status apiMessage msg =>
      match api_error_text E status apiMessage msg with
      | Ok shown => OtherError (Some shown)
      | Throw thrown => thrown
      end
  | _ => e
  end.

(** The state after the timer has been stopped. *)
Definition timed (start : Z) (st : state) : state :=
  set_latencyHistogram (latencyHistogram st ++ [([], now st - start)%Z]) st.

(** An operation is quiet within [n] when it sends at most [n] requests
    upstream, only appends to the trace, leaves the three metric sinks
    alone and does not turn the clock back. *)
Definition quiet (n : nat) {A} (m : M A) : Prop :=
  forall st,
    (exists l, http_log (snd (m st)) = http_log st ++ l /\ length l <= n)
    /\ requestCounter (snd (m st)) = requestCounter st
    /\ errorCounter (snd (m st)) = errorCounter st
    /\ latencyHistogram (snd (m st)) = latencyHistogram st
    /\ (now st <= now (snd (m st)))%Z.

Definition quiet_client (n : nat) (c : Client) : Prop :=
  (forall question context systemPrompt options,
     quiet n (c_ask c question context systemPrompt options))
  /\ (forall request, quiet n (c_chatCompletion c request))
  /\ (forall request, quiet n (c_liveSearch c request))
  /\ quiet n (c_getModels c)
  /\ quiet n (c_testConnection c).

(** A step of the pipeline started at [start]: it is quiet but for the
    latency. When it returns it has observed the latency once if [timed]
    is set and not at all otherwise. When it throws it has observed
    nothing, or, if [late] is set, it has stopped the timer and then failed
    to convert a value to a string. *)
Definition observes (n : nat) (start : Z) (timed late : bool) {A} (m : M A) : Prop :=
  forall st,
    (start <= now st)%Z ->
    (exists l, http_log (snd (m st)) = http_log st ++ l /\ length l <= n)
    /\ requestCounter (snd (m st)) = requestCounter st
    /\ errorCounter (snd (m st)) = errorCounter st
    /\ (now st <= now (snd (m st)))%Z
    /\ match fst (m st) with
       | Ok _ =>
           latencyHistogram (snd (m st))
           = latencyHistogram st
             ++ (if timed then [([], now (snd (m st)) - start)%Z] else [])
       | Throw e =>
           latencyHistogram (snd (m st)) = latencyHistogram st
           \/ (late = true /\ e = cannot_convert
               /\ latencyHistogram (snd (m st))
                  = latencyHistogram st ++ [([], now (snd (m st)) - start)%Z])
       end.

(** The cases of the [switch] that build their text after the timer was
    stopped: [grok_models] and the default case. *)
Definition formats_late (name : value) : bool :=
  is_str name "grok_models" || negb (existsb (is_str name) registered_tools).

(** The name a request asks for. *)
Definition requested_tool (E : Env) (request : value) : value :=
  opt E (opt E request "params") "name".

(* ===================================================================== *)
(** * Properties of sanitize *)
(* ===================================================================== *)

Lemma sanitize_obj kvs :
  sanitize (VObj kvs) = VObj (fold_left sanitize_step kvs []).
Proof. reflexivity. Qed.

Lemma is_stripped_forbidden c :
  is_stripped c = existsb (Ascii.eqb c) forbidden.
Proof. destruct c as [[] [] [] [] [] [] [] []]; reflexivity. Qed.

Lemma strip_clean s :
  forallb (fun c => negb (existsb (Ascii.eqb c) forbidden))
    (list_ascii_of_string (strip s)) = true.
Proof.
  induction s as [|c r IH]; cbn [strip]; [reflexivity|].
  destruct (is_stripped c) eqn:Hc; [exact IH|].
  cbn [list_ascii_of_string forallb].
  rewrite <- is_stripped_forbidden, Hc. exact IH.
Qed.

Lemma strip_fixed s :
  forallb (fun c => negb (is_stripped c)) (list_ascii_of_string s) = true ->
  strip s = s.
Proof.
  induction s as [|c r IH]; simpl; [reflexivity|].
  intros H. apply andb_prop in H as [Hc Hr].
  destruct (is_stripped c); [discriminate|]. by rewrite IH.
Qed.

Lemma strip_idempotent s : strip (strip s) = strip s.
Proof.
  apply strip_fixed. rewrite <- (strip_clean s).
  induction (list_ascii_of_string (strip s)) as [|c r IH]; [reflexivity|].
  cbn [forallb]. by rewrite IH, is_stripped_forbidden.
Qed.

(** Writing a key that is new appends it; writing a present key keeps the
    keys as they are. *)
Lemma obj_set_fresh k v (o : object) :
  k ∉ o.*1 -> obj_set k v o = o ++ [(k, v)].
Proof.
  induction o as [|[k' v'] r IH]; [reflexivity|].
  intros Hk. rewrite fmap_cons in Hk. cbn [fst] in Hk.
  apply not_elem_of_cons in Hk as [Hne Hr]. cbn [obj_set].
  destruct (decide (k = k')); [contradiction|]. by rewrite IH.
Qed.

Lemma obj_set_keys_present k v (o : object) :
  k ∈ o.*1 -> (obj_set k v o).*1 = o.*1.
Proof.
  induction o as [|[k' v'] r IH]; intros Hk.
  - by apply elem_of_nil in Hk.
  - cbn [obj_set]. rewrite fmap_cons in Hk. cbn [fst] in Hk.
    destruct (decide (k = k')) as [->|Hne]; rewrite !fmap_cons; cbn [fst];
      [reflexivity|].
    apply elem_of_cons in Hk as [?|Hk]; [contradiction|]. by rewrite IH.
Qed.

Lemma obj_set_NoDup k v (o : object) :
  NoDup o.*1 -> NoDup (obj_set k v o).*1.
Proof.
  intros Hnd. destruct (decide (k ∈ o.*1)) as [Hin|Hout].
  - by rewrite obj_set_keys_present.
  - rewrite obj_set_fresh by done. rewrite fmap_app. simpl.
    apply NoDup_app. split; [done|]. split.
    + intros x Hx Hx'. apply list_elem_of_singleton in Hx'. by subst.
    + apply NoDup_singleton.
Qed.

Lemma obj_set_Forall (Q : string * value -> Prop) k v (o : object) :
  Forall Q o -> Q (k, v) -> Forall Q (obj_set k v o).
Proof.
  intros Ho Hkv. induction Ho as [|[k' v'] r Hx Hr IH]; simpl.
  - by constructor.
  - destruct (decide (k = k')); constructor; done.
Qed.

(** What the loop of [sanitize] maintains, for any property [Q] of the
    entries it writes. *)
Lemma sanitize_fold_inv (Q : string * value -> Prop) kvs acc :
  Forall (fun kv => dropped (fst kv) = false -> Q (fst kv, sanitize (snd kv))) kvs ->
  NoDup acc.*1 -> Forall Q acc ->
  NoDup (fold_left sanitize_step kvs acc).*1
  /\ Forall Q (fold_left sanitize_step kvs acc).
Proof.
  intros Hkvs. revert acc.
  induction Hkvs as [|[k v] r Hx Hr IH]; simpl; intros acc Hnd Hacc; [done|].
  unfold sanitize_step at 2 4. simpl. destruct (dropped k) eqn:Hk.
  - by apply IH.
  - apply IH; [by apply obj_set_NoDup | apply obj_set_Forall; auto].
Qed.

(** On an object whose keys are distinct and kept and whose values
    [sanitize] leaves alone, the loop rebuilds the object. *)
Lemma sanitize_fold_fixed (o acc : object) :
  NoDup (acc ++ o).*1 ->
  Forall (fun kv => dropped (fst kv) = false /\ sanitize (snd kv) = snd kv) o ->
  fold_left sanitize_step o acc = acc ++ o.
Proof.
  revert acc. induction o as [|[k v] r IH]; simpl; intros acc Hnd Ho.
  - by rewrite app_nil_r.
  - apply Forall_cons in Ho as [[Hk Hv] Hr]. simpl in Hk, Hv.
    unfold sanitize_step at 2. simpl. rewrite Hk, Hv.
    assert (Hfresh : k ∉ acc.*1).
    { rewrite fmap_app in Hnd. apply NoDup_app in Hnd as (_ & Hdis & _).
      intros Hin. apply (Hdis k Hin). simpl. apply elem_of_cons. by left. }
    rewrite obj_set_fresh by done.
    rewrite IH; [by rewrite <- app_assoc | by rewrite <- app_assoc | done].
Qed.

Lemma sanitize_idempotent v : sanitize (sanitize v) = sanitize v.
Proof.
  induction v as [| | | |s|l IH|kvs IH] using value_ind; simpl; try reflexivity.
  - by rewrite strip_idempotent.
  - f_equal. rewrite map_map. apply map_ext_Forall. exact IH.
  - change (sanitize (VObj (fold_left sanitize_step kvs [])) =
            VObj (fold_left sanitize_step kvs [])).
    rewrite sanitize_obj. f_equal.
    destruct (sanitize_fold_inv
                (fun kv => dropped (fst kv) = false /\ sanitize (snd kv) = snd kv)
                kvs []) as [Hnd Hall].
    + eapply Forall_impl; [exact IH|]. intros [k v] Hv Hk. simpl in *. done.
    + constructor.
    + constructor.
    + apply (sanitize_fold_fixed _ []); done.
Qed.






Lemma sanitize_fold_distinct (kvs acc : object) :
  NoDup (map fst acc ++ map fst kvs) ->
  fold_left sanitize_step kvs acc = acc ++ kept_entries kvs.
Proof.
  revert acc. induction kvs as [|[k v] r IH]; intros acc Hnd.
  - by rewrite app_nil_r.
  - cbn [fold_left]. cbn [map] in Hnd. change (fst (k, v)) with k in Hnd.
    unfold kept_entries. cbn [List.filter]. change (fst (k, v)) with k.
    unfold sanitize_step at 2. change (fst (k, v)) with k.
    change (snd (k, v)) with v.
    assert (Hr : forall acc' : object, map fst acc' = map fst acc \/
                              map fst acc' = map fst acc ++ [k] ->
                              NoDup (map fst acc' ++ map fst r)).
    { intros acc' [-> | ->].
      - apply NoDup_app in Hnd as (Ha & Hdis & Hkr). apply NoDup_app.
        split; [done|]. split; [|by apply NoDup_cons in Hkr as [_ ?]].
        intros x Hx Hxr. apply (Hdis x Hx). apply elem_of_cons. by right.
      - by rewrite <- app_assoc. }
    destruct (dropped k) eqn:Hk; cbn [negb].
    + apply IH. apply Hr. by left.
    + assert (Hfresh : k ∉ acc.*1).
      { apply NoDup_app in Hnd as (_ & Hdis & _). intros Hin.
        apply (Hdis k Hin). apply elem_of_cons. by left. }
      rewrite obj_set_fresh by done. rewrite IH.
      * cbn [map fst snd]. by rewrite <- app_assoc.
      * apply Hr. right. by rewrite map_app.
Qed.

Lemma sanitize_obj_distinct kvs :
  NoDup (map fst kvs) -> sanitize (VObj kvs) = VObj (kept_entries kvs).
Proof.
  intros Hnd. rewrite sanitize_obj. f_equal.
  apply (sanitize_fold_distinct kvs []). exact Hnd.
Qed.




(* ===================================================================== *)
(** * Properties of the request pipeline *)
(* ===================================================================== *)

Section Pipeline.
Variable E : Env.
Variable grokClient : Client.



(** [handleToolCall] counts the request, runs the body, and turns what
    the body throws into an error response. *)
Lemma handleToolCall_unfold request st :
  handleToolCall E grokClient request st
  = match handle_body E grokClient (now st) request (counted st) with
    | (Ok a, st') => (Ok a, st')
    | (Throw e, st') => (Ok (handleError e), failed (now st) st')
    end.
Proof.
  unfold handleToolCall, bind, try_catch, startTimer, requestCounter_inc, ret.
  change (set_requestCounter (bump (requestCounter st) []) st) with (counted st).
  destruct (handle_body E grokClient (now st) request (counted st)) as [[a|e] st'];
    reflexivity.
Qed.

Lemma handleError_shown e :
  handleError e = text_envelope (VStr ("Error: " +:+ shown_message e)).
Proof.
  unfold handleError, shown_message.
  destruct e as [m|m|m z|s a m|[m|]]; simpl; try reflexivity;
    destruct (String.eqb m ""); reflexivity.
Qed.


End Pipeline.

(* ===================================================================== *)
(** * Sanitization (C5, C10) *)
(* ===================================================================== *)


(** C10. [sanitize] is idempotent; numbers, booleans, [null] (and
    [undefined]) are returned unchanged; the elements of an array are
    sanitized in place, so the length and the order of an array are
    preserved. *)
Theorem sanitize_is_idempotent v :
  sanitize (sanitize v) = sanitize v
  /\ sanitize VNull = VNull
  /\ sanitize VUndef = VUndef
  /\ (forall b, sanitize (VBool b) = VBool b)
  /\ (forall n, sanitize (VNum n) = VNum n)
  /\ (forall l, sanitize (VArr l) = VArr (map sanitize l)
                /\ length (map sanitize l) = length l
                /\ forall i, map sanitize l !! i = sanitize <$> l !! i).
Proof.
  split; [apply sanitize_idempotent|].
  repeat split; try reflexivity.
  - apply length_map.
  - intros i. apply list_lookup_fmap.
Qed.

(* ===================================================================== *)
(** * Unknown tools (C8) *)
(* ===================================================================== *)


Lemma to_string_cases P v :
  (exists shown, to_string P v = Ok shown /\ printable v = true)
  \/ (to_string P v = Throw cannot_convert /\ printable v = false).
Proof.
  destruct v; try (left; eexists; split; reflexivity); cbn [to_string];
    (destruct (printable _); [left; eexists; split; reflexivity | right; by split]).
Qed.



(* ===================================================================== *)
(** * Error mapping (C2) *)
(* ===================================================================== *)

(** A [grok_search] call without arguments throws a TypeError when
    [max_results] is read; its message is shown, not the generic one. *)
Lemma error_mapping_counterexample : ~ error_mapping_as_specified.
Proof.
  intros H.
  pose (E := Sample.env Sample.unreachable None).
  specialize (H E (Current.client E) (tool_request (VStr "grok_search") VUndef)
                Sample.init (cannot_read VUndef "max_results")
                (counted Sample.init)).
  assert (Hbody : handle_body E (Current.client E) (now Sample.init)
                    (tool_request (VStr "grok_search") VUndef) (counted Sample.init)
                  = (Throw (cannot_read VUndef "max_results"), counted Sample.init))
    by reflexivity.
  specialize (H Hbody). rewrite handleToolCall_unfold, Hbody in H.
  vm_compute in H. discriminate H.
Qed.

(** C2 (amended). [handleToolCall] never raises: whatever is thrown during
    a call comes back as the envelope with the text "Error: <message>",
    where <message> is the thrown error's own message when the error is a
    ValidationError, AuthError or ExternalServiceError, and also when it
    is any other error with a non-empty message; only an error without a
    message gets the generic "Internal server error". *)
Theorem error_response_shows_message E grokClient request st :
  exists env st',
    handleToolCall E grokClient request st = (Ok env, st')
    /\ forall e st1,
         handle_body E grokClient (now st) request (counted st) = (Throw e, st1) ->
         env = text_envelope (VStr ("Error: " +:+ shown_message e))
         /\ st' = failed (now st) st1.
Proof.
  rewrite handleToolCall_unfold.
  destruct (handle_body E grokClient (now st) request (counted st)) as [[a|e] st1].
  - exists a, st1. split; [reflexivity|]. intros e st2 Hbody. discriminate Hbody.
  - exists (handleError e), (failed (now st) st1). split; [reflexivity|].
    intros e' st2 Hbody. injection Hbody as <- <-.
    split; [apply handleError_shown | reflexivity].
Qed.

(* ===================================================================== *)
(** * Authentication (C1) *)
(* ===================================================================== *)

Lemma N_of_ascii_inj a b : N_of_ascii a = N_of_ascii b -> a = b.
Proof.
  intros H. rewrite <- (ascii_N_embedding a), <- (ascii_N_embedding b).
  by rewrite H.
Qed.

Lemma byte_diff_zero a b acc :
  length a = length b ->
  byte_diff a b acc = 0%N <-> acc = 0%N /\ a = b.
Proof.
  revert b acc. induction a as [|x a IH]; intros [|y b] acc Hlen;
    simpl in Hlen; try discriminate; simpl.
  - tauto.
  - rewrite IH by congruence. rewrite N.lor_eq_0_iff. split.
    + intros [[Hacc Hxy] ->]. apply N.lxor_eq in Hxy.
      apply N_of_ascii_inj in Hxy. by subst.
    + intros [Hacc Heq]. injection Heq as -> ->.
      by rewrite N.lxor_nilpotent.
Qed.

(** The comparison in constant time decides equality of the buffers. *)
Lemma timingSafeEqual_spec a b :
  length a = length b -> timingSafeEqual a b = true <-> a = b.
Proof.
  intros Hlen. unfold timingSafeEqual.
  rewrite N.eqb_eq, byte_diff_zero by done. tauto.
Qed.

Lemma list_ascii_of_string_inj s t :
  list_ascii_of_string s = list_ascii_of_string t -> s = t.
Proof.
  intros H. rewrite <- (string_of_list_ascii_of_string s),
              <- (string_of_list_ascii_of_string t).
  by rewrite H.
Qed.

Lemma checkAuth_rejects E request token secret :
  SHARED_SECRET E = Some secret ->
  auth_token E request = VStr token ->
  token <> secret ->
  checkAuth E request = Throw unauthorized.
Proof.
  intros Hsecret Htoken Hne. unfold checkAuth. rewrite Hsecret, Htoken.
  cbn [truthy]. rewrite negb_involutive.
  destruct (String.eqb token ""); [reflexivity|].
  destruct (String.eqb secret ""); [reflexivity|]. cbn [orb Buffer_of].
  destruct (Nat.eqb (length (list_ascii_of_string token))
              (length (list_ascii_of_string secret))) eqn:Hlen; [|reflexivity].
  apply Nat.eqb_eq in Hlen. cbn [negb orb].
  destruct (timingSafeEqual (list_ascii_of_string token)
              (list_ascii_of_string secret)) eqn:Heq; [|reflexivity].
  apply timingSafeEqual_spec in Heq; [|done].
  apply list_ascii_of_string_inj in Heq. contradiction.
Qed.







(* ===================================================================== *)
(** * The operations that never raise (C9) *)
(* ===================================================================== *)

Lemma try_catch_returns {A} (m : M A) (h : error -> M A) (fallback : A) st :
  (forall e st1, h e st1 = (Ok fallback, st1)) ->
  exists a st',
    try_catch m h st = (Ok a, st')
    /\ forall e st1, m st = (Throw e, st1) -> a = fallback.
Proof.
  intros Hh. unfold try_catch. destruct (m st) as [[a|e] st1].
  - exists a, st1. split; [reflexivity|]. intros e st2 Hm. discriminate Hm.
  - exists fallback, st1. split; [apply Hh|]. reflexivity.
Qed.

(** When the request to the models endpoint is rejected, so is the [try]
    block of [getModels]. *)
Lemma fetch_models_rejected E single st e :
  outcome (upstream E (http_log st) (models_call)) = Throw e ->
  exists st1, fetch_models E single st = (Throw e, st1).
Proof.
  intros Hout. unfold fetch_models, bind, http. rewrite Hout. eauto.
Qed.

Lemma getModels_with_returns E single fallback st :
  exists ids st',
    getModels_with E single fallback st = (Ok ids, st')
    /\ (forall e st1, fetch_models E single st = (Throw e, st1) ->
        ids = map VStr fallback)
    /\ (forall e, outcome (upstream E (http_log st) models_call) = Throw e ->
        ids = map VStr fallback).
Proof.
  destruct (try_catch_returns (fetch_models E single)
              (fun _ => ret (map VStr fallback)) (map VStr fallback) st)
    as (ids & st' & Hrun & Hfail); [reflexivity|].
  exists ids, st'. split; [exact Hrun|]. split; [exact Hfail|].
  intros e Hout. destruct (fetch_models_rejected E single st e Hout) as [st1 Hst1].
  by apply (Hfail e st1).
Qed.

(** C9. [getModels] and [testConnection] never raise. Whatever the
    upstream does, [getModels] returns a list of identifiers, and it is the
    fixed fallback list whenever anything fails inside its [try] block, in
    particular when the request is rejected; [testConnection] returns a
    boolean, which is [false] whenever its chat completion fails. This
    holds for both versions of the client. *)
Theorem getModels_and_testConnection_never_raise E st :
  (exists ids st',
     Legacy.getModels E st = (Ok ids, st')
     /\ (forall e st1, fetch_models E ["grok-4"] st = (Throw e, st1) ->
         ids = map VStr ["grok-4-1-fast-reasoning"; "grok-4-1-fast-non-reasoning";
                         "grok-code-fast-1"; "grok-4"; "grok-3"])
     /\ (forall e, outcome (upstream E (http_log st) models_call) = Throw e ->
         ids = map VStr ["grok-4-1-fast-reasoning"; "grok-4-1-fast-non-reasoning";
                         "grok-code-fast-1"; "grok-4"; "grok-3"]))
  /\ (exists ids st',
        Current.getModels E st = (Ok ids, st')
        /\ (forall e st1, fetch_models E ["grok-4.1-fast"] st = (Throw e, st1) ->
            ids = map VStr ["grok-4.1-fast"; "grok-4-1-fast-reasoning";
                            "grok-4-1-fast-non-reasoning"; "grok-code-fast-1";
                            "grok-4"])
        /\ (forall e, outcome (upstream E (http_log st) models_call) = Throw e ->
            ids = map VStr ["grok-4.1-fast"; "grok-4-1-fast-reasoning";
                            "grok-4-1-fast-non-reasoning"; "grok-code-fast-1";
                            "grok-4"]))
  /\ (exists connected st',
        testConnection E st = (Ok connected, st')
        /\ (forall e st1, chatCompletion E ping_request st = (Throw e, st1) ->
            connected = false)
        /\ (forall data st1, chatCompletion E ping_request st = (Ok data, st1) ->
            connected = true)).
Proof.
  split; [apply getModels_with_returns|].
  split; [apply getModels_with_returns|].
  unfold testConnection, try_catch, bind, ret.
  destruct (chatCompletion E ping_request st) as [[data|e] st1].
  - exists true, st1. split; [reflexivity|]. split; [|reflexivity].
    intros e st2 H. discriminate H.
  - exists false, st1. split; [reflexivity|]. split; [reflexivity|].
    intros data st2 H. discriminate H.
Qed.

(* ===================================================================== *)
(** * The search fallback (C3) *)
(* ===================================================================== *)

(** With an upstream that cannot be reached, the client with the agentic
    search rethrows, and so does the client with the simulated search, whose
    fallback chat completion fails as well. *)
Lemma search_fallback_counterexample :
  ~ search_fallback_as_specified Current.liveSearch
  /\ ~ search_fallback_as_specified Legacy.liveSearch.
Proof.
  split; intros H;
    destruct (H (Sample.env Sample.unreachable None) [("query", VStr "test")]
                Sample.init) as (response & x & l & Hrun & _);
    try (intros history call; eexists; reflexivity);
    vm_compute in Hrun; discriminate Hrun.
Qed.

Lemma searchPrompt_query E request prompt :
  Legacy.searchPrompt E request = Ok prompt ->
  exists query, to_string (plat E) (obj_get "query" request) = Ok query.
Proof.
  unfold Legacy.searchPrompt, rbind.
  destruct (to_string (plat E) (obj_get "query" request)) as [query|];
    [eauto | discriminate].
Qed.

Lemma simulateSearch_parse_failure E request st prompt chatResponse st1 c e query :
  Legacy.searchPrompt E request = Ok prompt ->
  chatCompletion E (Legacy.simulate_request prompt) st = (Ok chatResponse, st1) ->
  first_content E chatResponse = Ok c ->
  Legacy.parse_simulated E chatResponse = Throw e ->
  to_string (plat E) (obj_get "query" request) = Ok query ->
  Legacy.simulateSearch E request st
  = (Ok (Legacy.searchResponse
           (VArr [Legacy.fallback_result E query query query]) (of_Z 1)), st1).
Proof.
  intros Hprompt Hchat Hfirst Hparse Hquery.
  unfold Legacy.simulateSearch, bind, try_catch, lift, ret.
  rewrite Hprompt, Hchat, Hparse, Hfirst.
  unfold Legacy.fallbackResults, rbind. rewrite Hquery. reflexivity.
Qed.

Lemma legacy_liveSearch_falls_back E request st cached st0 status apiMessage msg st1 :
  cache_get (search_key E request) st = (Ok cached, st0) ->
  truthy cached = false ->
  limiter_schedule (post E "/search" (VObj request)) st0
  = (Throw (AxiosError status apiMessage msg), st1) ->
  Legacy.liveSearch E request st = Legacy.simulateSearch E request st1.
Proof.
  intros Hget Hfalsy Hpost.
  unfold Legacy.liveSearch, bind, try_catch.
  rewrite Hget, Hfalsy. unfold bind. rewrite Hpost. reflexivity.
Qed.

Lemma legacy_liveSearch_rethrows E request st cached st0 e st1 :
  cache_get (search_key E request) st = (Ok cached, st0) ->
  truthy cached = false ->
  limiter_schedule (post E "/search" (VObj request)) st0 = (Throw e, st1) ->
  isAxiosError e = false ->
  Legacy.liveSearch E request st = (Throw e, st1).
Proof.
  intros Hget Hfalsy Hpost Haxios.
  unfold Legacy.liveSearch, bind, try_catch.
  rewrite Hget, Hfalsy. unfold bind. rewrite Hpost, Haxios. reflexivity.
Qed.

Lemma current_liveSearch_rethrows E request st cached st0 chatRequest e st1 :
  cache_get (search_key E request) st = (Ok cached, st0) ->
  truthy cached = false ->
  Current.search_request E request = Ok chatRequest ->
  chatCompletion E chatRequest st0 = (Throw e, st1) ->
  Current.liveSearch E request st
  = (Throw (ExternalServiceError "Live search failed" 500), st1).
Proof.
  intros Hget Hfalsy Hrequest Hchat.
  unfold Current.liveSearch, bind, try_catch.
  rewrite Hget, Hfalsy. unfold bind, lift. rewrite Hrequest, Hchat. reflexivity.
Qed.

Lemma try_catch_throws {A} (m : M A) e0 st e st1 :
  try_catch m (fun _ => throw e0) st = (Throw e, st1) -> e = e0.
Proof.
  unfold try_catch, throw. destruct (m st) as [[a|e'] st']; intros H;
    [discriminate | by injection H as <- _].
Qed.

(** Whatever the agentic [liveSearch] throws is the one error of its
    [catch]. *)
Lemma current_liveSearch_throws E request st e st1 :
  Current.liveSearch E request st = (Throw e, st1) ->
  e = ExternalServiceError "Live search failed" 500.
Proof.
  unfold Current.liveSearch. unfold bind at 1. unfold cache_get.
  destruct (LRU.get (now st) (search_key E request) (cache st)) as [cached c0].
  destruct (truthy cached); [discriminate|].
  apply try_catch_throws.
Qed.

(** C3 (amended). On a cache miss in the client with the simulated
    search: when the request to the search endpoint is rejected with an
    Axios error, [liveSearch] is the simulated search; if then the prompt
    can be made, the fallback chat completion answers and its [choices]
    can be read, [liveSearch] returns a response, and a failure to parse
    the simulated-search JSON never escapes: it yields the single fallback
    result built from the original query, with [total_results] 1.
    Nothing more is caught there: a failure of the fallback chat
    completion, a chat payload whose [choices] cannot be read, a query
    that cannot be made into the prompt, and an error of the search
    endpoint that is not an Axios error are all rethrown. In the
    client with the agentic search nothing degrades: whatever fails behind
    [liveSearch] (making the request, the chat completion, reading the
    message, building the results) is rethrown as ExternalServiceError
    "Live search failed", and [liveSearch] throws nothing else. *)
Theorem simulated_search_degrades_to_fallback E request st cached st0 :
  cache_get (search_key E request) st = (Ok cached, st0) ->
  truthy cached = false ->
  (forall status apiMessage msg st1,
     limiter_schedule (post E "/search" (VObj request)) st0
     = (Throw (AxiosError status apiMessage msg), st1) ->
     Legacy.liveSearch E request st = Legacy.simulateSearch E request st1
     /\ (forall prompt chatResponse st2 c,
           Legacy.searchPrompt E request = Ok prompt ->
           chatCompletion E (Legacy.simulate_request prompt) st1
           = (Ok chatResponse, st2) ->
           first_content E chatResponse = Ok c ->
           exists response,
             Legacy.liveSearch E request st = (Ok response, st2)
             /\ forall e,
                  Legacy.parse_simulated E chatResponse = Throw e ->
                  exists query,
                    to_string (plat E) (obj_get "query" request) = Ok query
                    /\ response
                       = VObj [ ("results",
                                  VArr [ VObj
                                    [ ("title", VStr ("Search results for: " +:+ query));
                                      ("url", VStr ("https://www.google.com/search?q="
                                                    +:+ encodeURIComponent (plat E) query));
                                      ("snippet",
                                        VStr ("Information about " +:+ query
                                              +:+ " - simulated search result as the live search API is not available.")) ] ]);
                                ("total_results", of_Z 1);
                                ("search_time", VNum half) ])
     /\ (forall prompt e st2,
           Legacy.searchPrompt E request = Ok prompt ->
           chatCompletion E (Legacy.simulate_request prompt) st1 = (Throw e, st2) ->
           Legacy.liveSearch E request st = (Throw e, st2))
     /\ (forall prompt chatResponse st2 e,
           Legacy.searchPrompt E request = Ok prompt ->
           chatCompletion E (Legacy.simulate_request prompt) st1
           = (Ok chatResponse, st2) ->
           first_content E chatResponse = Throw e ->
           Legacy.liveSearch E request st = (Throw e, st2))
     /\ (forall e,
           Legacy.searchPrompt E request = Throw e ->
           Legacy.liveSearch E request st = (Throw e, st1)))
  /\ (forall e st1,
        limiter_schedule (post E "/search" (VObj request)) st0 = (Throw e, st1) ->
        isAxiosError e = false ->
        Legacy.liveSearch E request st = (Throw e, st1))
  /\ (forall e st1,
        Current.liveSearch E request st = (Throw e, st1) ->
        e = ExternalServiceError "Live search failed" 500)
  /\ (forall chatRequest e st1,
        Current.search_request E request = Ok chatRequest ->
        chatCompletion E chatRequest st0 = (Throw e, st1) ->
        Current.liveSearch E request st
        = (Throw (ExternalServiceError "Live search failed" 500), st1))
  /\ (forall e,
        Current.search_request E request = Throw e ->
        Current.liveSearch E request st
        = (Throw (ExternalServiceError "Live search failed" 500), st0))
  /\ (forall chatRequest chatResponse st1,
        Current.search_request E request = Ok chatRequest ->
        chatCompletion E chatRequest st0 = (Ok chatResponse, st1) ->
        (forall e,
           first_message E chatResponse = Throw e ->
           Current.liveSearch E request st
           = (Throw (ExternalServiceError "Live search failed" 500), st1))
        /\ (forall msg e,
              first_message E chatResponse = Ok msg ->
              Current.parseSearchResults E
                (or_else (opt E msg "content") (VStr ""))
                (or_else (opt E msg "citations") (VArr []))
                (obj_get "max_results" request)
              = Throw e ->
              Current.liveSearch E request st
              = (Throw (ExternalServiceError "Live search failed" 500), st1))).
Proof.
  intros Hget Hfalsy.
  assert (Hcurrent : forall r,
             Current.liveSearch E request st
             = try_catch r (fun _ => throw (ExternalServiceError "Live search failed" 500)) st0 ->
             forall e st1, r st0 = (Throw e, st1) ->
             Current.liveSearch E request st
             = (Throw (ExternalServiceError "Live search failed" 500), st1)).
  { intros r -> e st1 Hr. unfold try_catch. by rewrite Hr. }
  assert (Htry : Current.liveSearch E request st
                 = try_catch
                     (chatRequest <- lift (Current.search_request E request) ;;
                      chatResponse <- chatCompletion E chatRequest ;;
                      msg <- lift (first_message E chatResponse) ;;
                      results <-
                        lift (Current.parseSearchResults E
                                (or_else (opt E msg "content") (VStr ""))
                                (or_else (opt E msg "citations") (VArr []))
                                (obj_get "max_results" request)) ;;
                      cache_set (search_key E request)
                        (VObj [ ("results", VArr results);
                                ("total_results", VNum (num_of_nat (length results)));
                                ("search_time", VNum half) ]) ;;;
                      ret (VObj [ ("results", VArr results);
                                  ("total_results", VNum (num_of_nat (length results)));
                                  ("search_time", VNum half) ]))
                     (fun _ => throw (ExternalServiceError "Live search failed" 500)) st0).
  { unfold Current.liveSearch. unfold bind at 1. by rewrite Hget, Hfalsy. }
  split; [|split; [|split; [|split; [|split]]]].
  - intros status apiMessage msg st1 Hpost.
    rewrite (legacy_liveSearch_falls_back E request st cached st0 status apiMessage msg st1)
      by assumption.
    split; [reflexivity|]. split; [|split; [|split]].
    + intros prompt chatResponse st2 c Hprompt Hchat Hfirst.
      destruct (searchPrompt_query E request prompt Hprompt) as [query Hquery].
      destruct (Legacy.parse_simulated E chatResponse) as [response|e] eqn:Hparse.
      * exists response. split; [|intros e He; discriminate He].
        unfold Legacy.simulateSearch, bind, try_catch, lift.
        by rewrite Hprompt, Hchat, Hparse.
      * eexists. split.
        -- apply (simulateSearch_parse_failure E request st1 prompt chatResponse st2
                    c e query); assumption.
        -- intros e' _. exists query. split; [exact Hquery | reflexivity].
    + intros prompt e st2 Hprompt Hchat.
      unfold Legacy.simulateSearch, bind, lift. by rewrite Hprompt, Hchat.
    + intros prompt chatResponse st2 e Hprompt Hchat Hfirst.
      unfold Legacy.simulateSearch, bind, try_catch, lift, Legacy.parse_simulated.
      by rewrite Hprompt, Hchat, Hfirst.
    + intros e Hprompt. unfold Legacy.simulateSearch, bind, lift. by rewrite Hprompt.
  - intros e st1. by apply legacy_liveSearch_rethrows with (cached := cached).
  - apply current_liveSearch_throws.
  - intros chatRequest e st1. by apply current_liveSearch_rethrows with (cached := cached).
  - intros e Hrequest. apply (Hcurrent _ Htry e).
    unfold bind, lift. by rewrite Hrequest.
  - intros chatRequest chatResponse st1 Hrequest Hchat. split.
    + intros e Hmsg. apply (Hcurrent _ Htry e).
      unfold bind, lift. by rewrite Hrequest, Hchat, Hmsg.
    + intros msg e Hmsg Hparse. apply (Hcurrent _ Htry e).
      unfold bind, lift. by rewrite Hrequest, Hchat, Hmsg, Hparse.
Qed.

Lemma simulated_search_degrades_to_fallback_witness :
  let E := Sample.env (Sample.chat_only "no results today") None in
  exists st2,
    Legacy.liveSearch E [("query", VStr "test")] Sample.init
    = (Ok (VObj [ ("results",
                    VArr [ VObj
                      [ ("title", VStr "Search results for: test");
                        ("url", VStr "https://www.google.com/search?q=test");
                        ("snippet",
                          VStr "Information about test - simulated search result as the live search API is not available.") ] ]);
                  ("total_results", of_Z 1);
                  ("search_time", VNum half) ]), st2).
Proof.
  intros E.
  pose (st1 := snd (limiter_schedule (post E "/search" (VObj [("query", VStr "test")]))
                      Sample.init)).
  destruct (simulated_search_degrades_to_fallback E [("query", VStr "test")]
              Sample.init VUndef Sample.init eq_refl eq_refl)
    as [Hlegacy _].
  destruct (Hlegacy (Some 404%Z) VUndef "Request failed with status code 404" st1 eq_refl)
    as (_ & Hfallback & _).
  destruct (Hfallback (Legacy.prompt_text "test" (Sample.show (of_Z 5)))
              (Sample.chat_reply "no results today")
              (snd (Legacy.simulateSearch E [("query", VStr "test")] st1))
              (VStr "no results today"))
    as (response & Hrun & Hparse); [reflexivity | vm_compute; reflexivity | reflexivity |].
  destruct (Hparse (OtherError (Some "Unexpected token in JSON")) eq_refl)
    as (query & Hquery & ->).
  injection Hquery as <-. eexists. exact Hrun.
Defined.

(* ===================================================================== *)
(** * The response cache (C6) *)
(* ===================================================================== *)






(** On a cache miss, [chatCompletion] sends one request; when it is
    rejected nothing is written to the cache. *)
Lemma chatCompletion_rejected E request st e :
  truthy (fst (LRU.get (now st) (chat_key E request) (cache st))) = false ->
  outcome (upstream E (http_log st) (chat_call E request)) = Throw e ->
  exists st1,
    chatCompletion E request st = (Throw (grok_api_error E e), st1)
    /\ http_log st1 = http_log st ++ [chat_call E request]
    /\ cache st1 = snd (LRU.get (now st) (chat_key E request) (cache st))
    /\ errorCounter st1 = errorCounter st.
Proof.
  intros Hmiss Hout. unfold chatCompletion, bind, cache_get.
  destruct (LRU.get (now st) (chat_key E request) (cache st)) as [cached c0].
  cbn [fst snd] in *. rewrite Hmiss.
  unfold try_catch, bind, limiter_schedule, post, http.
  cbn [http_log set_last_launch set_now set_cache].
  change {| method := "POST"; path := "/chat/completions";
            body := VObj _ |} with (chat_call E request).
  rewrite Hout.
  destruct e as [m|m|m z|status apiMessage m|m];
    try (eexists; split; [reflexivity|]; repeat split; reflexivity).
  cbn [grok_api_error]. unfold lift, throw.
  destruct (api_error_text E status apiMessage m);
    eexists; (split; [reflexivity|]); repeat split; reflexivity.
Qed.

Lemma chatCompletion_miss_log E request st :
  truthy (fst (LRU.get (now st) (chat_key E request) (cache st))) = false ->
  http_log (snd (chatCompletion E request st))
  = http_log st ++ [chat_call E request].
Proof.
  intros Hmiss. unfold chatCompletion, bind, cache_get.
  destruct (LRU.get (now st) (chat_key E request) (cache st)) as [cached c0].
  cbn [fst snd] in *. rewrite Hmiss.
  unfold try_catch, bind, limiter_schedule, post, http, cache_set, ret, throw.
  cbn [http_log set_last_launch set_now set_cache].
  change {| method := "POST"; path := "/chat/completions";
            body := VObj _ |} with (chat_call E request).
  destruct (outcome (upstream E (http_log st) (chat_call E request))) as [d|e];
    [reflexivity|].
  destruct e as [m|m|m z|status apiMessage m|m]; try reflexivity.
  unfold lift. by destruct (api_error_text E status apiMessage m).
Qed.






(* ===================================================================== *)
(** * The coercion and validation of max_results (C7) *)
(* ===================================================================== *)

Lemma safeParse_object_cons k s shape o :
  is_Some (safeParse (z_object ((k, s) :: shape)) (VObj o))
  <-> is_Some (safeParse s (obj_get k o))
      /\ is_Some (safeParse (z_object shape) (VObj o)).
Proof.
  cbn [safeParse parse_fields].
  destruct (safeParse s (obj_get k o)) as [y|];
    destruct (parse_fields safeParse o shape) as [ys|]; split;
    try (intros _; split; eauto; fail);
    try (intros _; eauto; fail);
    try (intros [? Hx]; discriminate Hx);
    try (intros [[? Hx] _]; discriminate Hx);
    try (intros [_ [? Hx]]; discriminate Hx).
Qed.

Lemma max_results_schema v :
  is_Some (safeParse (z_optional (z_number None None true)) v)
  <-> integer_or_absent v.
Proof.
  unfold integer_or_absent. destruct v as [| | |n| | |]; cbn [safeParse];
    try (split; [intros [? H]; discriminate H
                | intros [H | (n' & H & _)]; discriminate H]).
  - split; eauto.
  - destruct n as [q| | |]; cbn [number_ok negb orb andb].
    + destruct (is_integer (Fin q)) eqn:Hint.
      * split; eauto.
      * split; [intros [? H]; discriminate H|].
        intros [H | (n' & H & Hn')]; [discriminate H|].
        injection H as <-. congruence.
    + split; [intros [? H]; discriminate H|].
      intros [H | (n' & H & Hn')]; [discriminate H|].
      injection H as <-. discriminate Hn'.
    + split; [intros [? H]; discriminate H|].
      intros [H | (n' & H & Hn')]; [discriminate H|].
      injection H as <-. discriminate Hn'.
    + split; [intros [? H]; discriminate H|].
      intros [H | (n' & H & Hn')]; [discriminate H|].
      injection H as <-. discriminate Hn'.
Qed.

(** Validation of [grok_search]: the other fields are valid and
    [max_results] is absent or an integer. *)
Lemma grok_search_validation o :
  is_Some (safeParse grokSearchSchema (VObj o))
  <-> is_Some (safeParse grokSearchSchema_rest (VObj o))
      /\ integer_or_absent (obj_get "max_results" o).
Proof.
  unfold grokSearchSchema, grokSearchSchema_rest.
  rewrite !safeParse_object_cons, max_results_schema. tauto.
Qed.

Lemma is_integer_of_Z z : is_integer (Fin (inject_Z z)) = true.
Proof.
  unfold is_integer. rewrite Qfloor_Z. apply Qeq_bool_iff. reflexivity.
Qed.

(** For what is not negative, [Math.floor] truncates. *)
Lemma floor_truncates q : (0 <= q)%Q -> floor (Fin q) = trunc (Fin q).
Proof.
  intros Hq. unfold floor, trunc. do 2 f_equal.
  destruct q as [n d]. unfold Qle in Hq. cbn in Hq |- *.
  symmetry. apply Z.quot_div_nonneg; lia.
Qed.

Lemma floor_idempotent n : floor (floor n) = floor n.
Proof. destruct n as [q| | |]; try reflexivity. cbn [floor]. by rewrite Qfloor_Z. Qed.

Lemma obj_set_twice k v (o : object) : obj_set k v (obj_set k v o) = obj_set k v o.
Proof.
  induction o as [|[k' v'] r IH]; cbn [obj_set].
  - by destruct (decide (k = k)).
  - destruct (decide (k = k')) as [->|Hne]; cbn [obj_set].
    + by destruct (decide (k' = k')).
    + destruct (decide (k = k')); [contradiction|]. by rewrite IH.
Qed.

Lemma obj_get_same k v (o : object) : obj_get k (obj_set k v o) = v.
Proof.
  induction o as [|[k' v'] r IH]; cbn [obj_set obj_get].
  - by destruct (decide (k = k)).
  - destruct (decide (k = k')) as [->|Hne]; cbn [obj_get].
    + by destruct (decide (k' = k')).
    + destruct (decide (k = k')); [contradiction | exact IH].
Qed.

(** A conversion fails in one way only. *)
Lemma to_number_throws P v e : to_number P v = Throw e -> e = cannot_convert.
Proof.
  destruct v; try discriminate; cbn [to_number];
    (destruct (printable _); [discriminate|]); intros H; by injection H.
Qed.

Lemma coerce_truthy E o n :
  truthy (obj_get "max_results" o) = true ->
  to_number (plat E) (obj_get "max_results" o) = Ok n ->
  coerce_max_results E (VObj o)
  = Ok (VObj (obj_set "max_results" (VNum (floor n)) o)).
Proof.
  intros H Hn. unfold coerce_max_results, prop, rbind. cbn [get_prop].
  by rewrite H, Hn.
Qed.

Lemma coerce_throws E o e :
  truthy (obj_get "max_results" o) = true ->
  to_number (plat E) (obj_get "max_results" o) = Throw e ->
  coerce_max_results E (VObj o) = Throw e.
Proof.
  intros H Hn. unfold coerce_max_results, prop, rbind. cbn [get_prop].
  by rewrite H, Hn.
Qed.

Lemma coerce_falsy E o :
  truthy (obj_get "max_results" o) = false ->
  coerce_max_results E (VObj o) = Ok (VObj o).
Proof. intros H. unfold coerce_max_results, prop. cbn [get_prop]. by rewrite H. Qed.

(** The coercion leaves a coerced object as it is. *)
Lemma coerce_coerced E o n :
  coerce_max_results E (VObj (obj_set "max_results" (VNum (floor n)) o))
  = Ok (VObj (obj_set "max_results" (VNum (floor n)) o)).
Proof.
  destruct (truthy (VNum (floor n))) eqn:Htruthy.
  - rewrite (coerce_truthy E _ (floor n)).
    + by rewrite floor_idempotent, obj_set_twice.
    + by rewrite obj_get_same.
    + by rewrite obj_get_same.
  - apply coerce_falsy. by rewrite obj_get_same.
Qed.

(** What fails validation is answered with a ValidationError before the
    client is called. *)
Lemma dispatch_grok_search_invalid E grokClient start safeArgs coerced st :
  coerce_max_results E safeArgs = Ok coerced ->
  safeParse grokSearchSchema coerced = None ->
  dispatch E grokClient start (VStr "grok_search") safeArgs st
  = (Throw (ValidationError "Invalid input for grok_search"), st).
Proof.
  intros Hcoerce Hparse. unfold dispatch.
  cbn [is_str String.eqb Ascii.eqb Bool.eqb].
  unfold bind, lift. by rewrite Hcoerce, Hparse.
Qed.

(** What passes validation goes to the client as it was parsed. *)
Lemma dispatch_grok_search_valid E grokClient start safeArgs coerced data st :
  coerce_max_results E safeArgs = Ok coerced ->
  safeParse grokSearchSchema coerced = Some data ->
  dispatch E grokClient start (VStr "grok_search") safeArgs st
  = (searchResults <- safeSearch grokClient (search_args E data) ;;
     lift (search_answer E data searchResults)) st.
Proof.
  intros Hcoerce Hparse. unfold dispatch.
  cbn [is_str String.eqb Ascii.eqb Bool.eqb].
  unfold bind at 1. unfold lift at 1. by rewrite Hcoerce, Hparse.
Qed.

Lemma dispatch_grok_search_throws E grokClient start safeArgs e st :
  coerce_max_results E safeArgs = Throw e ->
  dispatch E grokClient start (VStr "grok_search") safeArgs st = (Throw e, st).
Proof.
  intros Hcoerce. unfold dispatch.
  cbn [is_str String.eqb Ascii.eqb Bool.eqb].
  unfold bind, lift. by rewrite Hcoerce.
Qed.

Lemma safeParse_object shape o :
  safeParse (z_object shape) (VObj o)
  = match parse_fields safeParse o shape with
    | Some data => Some (VObj data)
    | None => None
    end.
Proof. reflexivity. Qed.

Lemma parse_fields_cons parse o k s r :
  parse_fields parse o ((k, s) :: r)
  = match parse s (obj_get k o), parse_fields parse o r with
    | Some y, Some ys => Some ((k, y) :: ys)
    | _, _ => None
    end.
Proof. reflexivity. Qed.

(** The parsed [max_results] is the coerced one. *)
Lemma parsed_max_results E coerced data :
  safeParse grokSearchSchema (VObj coerced) = Some data ->
  obj_get "max_results" (search_args E data) = obj_get "max_results" coerced.
Proof.
  unfold grokSearchSchema. rewrite safeParse_object, !parse_fields_cons.
  destruct (safeParse (z_string false) (obj_get "query" coerced)) as [y1|];
    [|discriminate].
  destruct (safeParse (z_optional (z_number None None true))
              (obj_get "max_results" coerced)) as [y2|] eqn:Hmax; [|discriminate].
  destruct (safeParse (z_optional z_boolean) (obj_get "include_images" coerced))
    as [y3|]; [|discriminate].
  destruct (safeParse (z_optional z_boolean) (obj_get "include_news" coerced))
    as [y4|]; [|discriminate].
  destruct (safeParse (z_optional (z_enum ["day"; "week"; "month"; "year"; "all"]))
              (obj_get "time_filter" coerced)) as [y5|]; [|discriminate].
  cbn [parse_fields]. intros H. injection H as <-.
  assert (Hy2 : y2 = obj_get "max_results" coerced).
  { revert Hmax.
    destruct (obj_get "max_results" coerced) as [| | |n| | |]; cbn [safeParse];
      try discriminate.
    - intros H. by injection H.
    - destruct (number_ok None None true n); [|discriminate].
      intros H. by injection H. }
  rewrite <- Hy2. reflexivity.
Qed.

(** [{query: "test", max_results: -1}] passes validation, and a negative
    float is not truncated: -2.5 becomes -3. *)
Lemma max_results_counterexample :
  ~ max_results_as_specified
  /\ floor (Fin (-5 # 2)) = Fin (-3 # 1)
  /\ trunc (Fin (-5 # 2)) = Fin (-2 # 1).
Proof.
  split; [|split; reflexivity].
  intros H.
  pose (o := [("query", VStr "test"); ("max_results", of_Z (-1))]).
  destruct (H (Sample.env Sample.unreachable None) o o) as [Hpositive _].
  - reflexivity.
  - vm_compute. eauto.
  - destruct Hpositive as [Habsent | (z & Hz & Heq)].
    + vm_compute. eauto.
    + discriminate Habsent.
    + vm_compute in Heq. injection Heq as Heq. lia.
Qed.

(** C7 (amended). Before validation, a truthy [max_results] is replaced by
    [Math.floor(Number(max_results))], which for a value that is not
    negative is truncation (a falsy one is left as it is), unless
    [Number] throws, as it does for an object with an own [toString]
    property: then the TypeError is thrown before validation.
    [{query: "test", max_results: 3.7}] becomes [max_results = 3] and
    passes validation. Among the requests whose other fields are valid,
    validation accepts every one whose coerced [max_results] is a positive
    integer and rejects every one whose coerced [max_results] is neither
    absent nor an integer. In the [switch]: what is rejected throws a
    ValidationError before the client is called; what is accepted goes
    to the client's [liveSearch] with the coerced [max_results]; and a
    call is handled exactly as the call with the floored value. *)
Theorem max_results_is_floored_then_validated E o :
  (forall n,
     truthy (obj_get "max_results" o) = true ->
     to_number (plat E) (obj_get "max_results" o) = Ok n ->
     coerce_max_results E (VObj o)
     = Ok (VObj (obj_set "max_results" (VNum (floor n)) o)))
  /\ (forall e,
        truthy (obj_get "max_results" o) = true ->
        to_number (plat E) (obj_get "max_results" o) = Throw e ->
        coerce_max_results E (VObj o) = Throw e
        /\ e = OtherError (Some "Cannot convert object to primitive value")
        /\ printable (obj_get "max_results" o) = false)
  /\ (truthy (obj_get "max_results" o) = false ->
      coerce_max_results E (VObj o) = Ok (VObj o))
  /\ (forall q, (0 <= q)%Q -> floor (Fin q) = trunc (Fin q))
  /\ (coerce_max_results E
        (VObj [("query", VStr "test"); ("max_results", VNum (Fin (37 # 10)))])
      = Ok (VObj [("query", VStr "test"); ("max_results", of_Z 3)])
      /\ is_Some (safeParse grokSearchSchema
                    (VObj [("query", VStr "test"); ("max_results", of_Z 3)])))
  /\ (forall coerced,
        is_Some (safeParse grokSearchSchema_rest (VObj coerced)) ->
        (forall z, (0 < z)%Z ->
                   obj_get "max_results" coerced = of_Z z ->
                   is_Some (safeParse grokSearchSchema (VObj coerced)))
        /\ (~ integer_or_absent (obj_get "max_results" coerced) ->
            safeParse grokSearchSchema (VObj coerced) = None))
  /\ (forall grokClient start safeArgs coerced st,
        coerce_max_results E safeArgs = Ok coerced ->
        safeParse grokSearchSchema coerced = None ->
        dispatch E grokClient start (VStr "grok_search") safeArgs st
        = (Throw (ValidationError "Invalid input for grok_search"), st))
  /\ (forall grokClient start safeArgs coerced data st,
        coerce_max_results E safeArgs = Ok (VObj coerced) ->
        safeParse grokSearchSchema (VObj coerced) = Some data ->
        dispatch E grokClient start (VStr "grok_search") safeArgs st
        = (searchResults <- safeSearch grokClient (search_args E data) ;;
           lift (search_answer E data searchResults)) st
        /\ obj_get "max_results" (search_args E data)
           = obj_get "max_results" coerced)
  /\ (forall grokClient start safeArgs e st,
        coerce_max_results E safeArgs = Throw e ->
        dispatch E grokClient start (VStr "grok_search") safeArgs st = (Throw e, st))
  /\ (forall grokClient start n st,
        truthy (obj_get "max_results" o) = true ->
        to_number (plat E) (obj_get "max_results" o) = Ok n ->
        dispatch E grokClient start (VStr "grok_search") (VObj o) st
        = dispatch E grokClient start (VStr "grok_search")
            (VObj (obj_set "max_results" (VNum (floor n)) o)) st).
Proof.
  split; [apply coerce_truthy|].
  split.
  { intros e Htruthy Hthrow. split; [by apply coerce_throws|].
    pose proof (to_number_throws _ _ _ Hthrow) as ->. split; [reflexivity|].
    revert Hthrow. destruct (obj_get "max_results" o); try discriminate;
      cbn [to_number]; by destruct (printable _). }
  split; [apply coerce_falsy|].
  split; [apply floor_truncates|].
  split; [split; [reflexivity | vm_compute; eauto]|].
  split.
  { intros coerced Hrest. split.
    + intros z Hz Hmax. apply grok_search_validation. split; [exact Hrest|].
      right. exists (Fin (inject_Z z)). split; [exact Hmax | apply is_integer_of_Z].
    + intros Hnot.
      destruct (safeParse grokSearchSchema (VObj coerced)) as [data|] eqn:Hparse;
        [|reflexivity].
      exfalso. apply Hnot.
      apply (proj1 (grok_search_validation coerced)). rewrite Hparse. eauto. }
  split.
  { intros grokClient start safeArgs coerced st.
    apply dispatch_grok_search_invalid. }
  split.
  { intros grokClient start safeArgs coerced data st Hcoerce Hparse.
    split; [by apply dispatch_grok_search_valid with (coerced := VObj coerced)|].
    by apply parsed_max_results. }
  split.
  { intros grokClient start safeArgs e st. apply dispatch_grok_search_throws. }
  intros grokClient start n st Htruthy Hn.
  pose proof (coerce_truthy E o n Htruthy Hn) as Hcoerce.
  pose proof (coerce_coerced E o n) as Hagain.
  unfold dispatch. cbn [is_str String.eqb Ascii.eqb Bool.eqb].
  unfold bind at 1 3. unfold lift at 1 3. by rewrite Hcoerce, Hagain.
Qed.

(* ===================================================================== *)
(** * Metrics (C4) *)
(* ===================================================================== *)

(** C4, on the code. A successful [grok_search] call returns without
    observing the latency: the histogram stays empty, whereas a
    [grok_models] call leaves one observation. The request counter grows
    at the sample without labels; no sample is labelled with the tool. *)
Theorem grok_search_success_records_no_latency :
  let E := Sample.env (Sample.chat_only "hello") None in
  let search :=
    handleToolCall E (Current.client E)
      (tool_request (VStr "grok_search") (VObj [("query", VStr "test")]))
      Sample.init in
  let models :=
    handleToolCall E (Current.client E)
      (tool_request (VStr "grok_models") (VObj [])) Sample.init in
  (exists t, fst search = Ok (text_envelope (VStr t)))
  /\ errorCounter (snd search) = ∅
  /\ latencyHistogram (snd search) = []
  /\ latencyHistogram (snd models) = [([], 10%Z)]
  /\ requestCounter (snd search) !! [("tool", "grok_search")] = None
  /\ requestCounter (snd search) !! [] = Some 1.
Proof.
  intros E search models.
  split; [eexists; vm_compute; reflexivity|].
  repeat split; vm_compute; reflexivity.
Qed.

(* ===================================================================== *)
(** * The theorems at concrete inputs *)
(* ===================================================================== *)


Lemma error_response_shows_message_witness :
  let E := Sample.env Sample.unreachable None in
  fst (handleToolCall E (Current.client E)
         (tool_request (VStr "grok_search") VUndef) Sample.init)
  = Ok (text_envelope
          (VStr "Error: Cannot read properties of undefined (reading 'max_results')")).
Proof.
  intros E.
  destruct (error_response_shows_message E (Current.client E)
              (tool_request (VStr "grok_search") VUndef) Sample.init)
    as (env & st' & Hrun & Hthrown).
  destruct (Hthrown (cannot_read VUndef "max_results") (counted Sample.init) eq_refl)
    as [-> _].
  rewrite Hrun. reflexivity.
Defined.

Lemma getModels_and_testConnection_never_raise_witness :
  let E := Sample.env Sample.unreachable None in
  fst (Legacy.getModels E Sample.init)
  = Ok (map VStr ["grok-4-1-fast-reasoning"; "grok-4-1-fast-non-reasoning";
                  "grok-code-fast-1"; "grok-4"; "grok-3"])
  /\ fst (testConnection E Sample.init) = Ok false.
Proof.
  intros E.
  destruct (getModels_and_testConnection_never_raise E Sample.init)
    as [(ids & st' & Hrun & _ & Hrejected)
          [_ (connected & st'' & Hping & Hfailed & _)]].
  split.
  - rewrite Hrun. cbn [fst]. f_equal.
    apply (Hrejected (AxiosError None VUndef "connect ECONNREFUSED")). reflexivity.
  - rewrite Hping. cbn [fst]. f_equal.
    apply (Hfailed (OtherError (Some "Grok API Error: undefined - connect ECONNREFUSED"))
             (snd (chatCompletion E (ping_request) Sample.init))).
    vm_compute. reflexivity.
Defined.

Lemma max_results_is_floored_then_validated_witness :
  let E := Sample.env Sample.unreachable None in
  let o := [("query", VStr "test"); ("max_results", VNum (Fin (37 # 10)))] in
  coerce_max_results E (VObj o)
  = Ok (VObj [("query", VStr "test"); ("max_results", of_Z 3)])
  /\ dispatch E (Legacy.client E) 0 (VStr "grok_search") (VObj o) Sample.init
     = dispatch E (Legacy.client E) 0 (VStr "grok_search")
         (VObj [("query", VStr "test"); ("max_results", of_Z 3)]) Sample.init
  /\ match http_log (snd (handleToolCall E (Legacy.client E)
                            (tool_request (VStr "grok_search") (VObj o)) Sample.init))
     with
     | call :: _ =>
         path call = "/search"
         /\ body call
            = VObj [ ("query", VStr "test"); ("max_results", of_Z 3);
                     ("include_images", VUndef); ("include_news", VUndef);
                     ("time_filter", VUndef) ]
     | [] => False
     end.
Proof.
  intros E o.
  destruct (max_results_is_floored_then_validated E o)
    as (Hcoerce & _ & _ & _ & _ & _ & _ & _ & _ & Hfloor).
  split; [|split].
  - rewrite (Hcoerce (Fin (37 # 10)) eq_refl eq_refl). reflexivity.
  - apply (Hfloor (Legacy.client E) 0%Z (Fin (37 # 10)) Sample.init eq_refl eq_refl).
  - vm_compute. split; reflexivity.
Defined.

(* ===================================================================== *)
(** * More on sanitize *)
(* ===================================================================== *)

(** X1. On an object whose keys are distinct, [sanitize] leaves out the
    entries whose key starts with a dollar sign or contains [__proto__]
    and sanitizes the values of the others; the keys it keeps are not
    altered (forbidden characters stay in a key) and keep their order. *)
Theorem sanitize_object_with_distinct_keys kvs :
  NoDup (map fst kvs) ->
  sanitize (VObj kvs) = VObj (kept_entries kvs)
  /\ map fst (kept_entries kvs)
     = List.filter (fun k => negb (dropped k)) (map fst kvs).
Proof.
  intros Hnd. split.
  - by apply sanitize_obj_distinct.
  - unfold kept_entries. clear Hnd.
    induction kvs as [|[k v] r IH]; [reflexivity|].
    cbn [List.filter map fst]. destruct (dropped k); cbn [negb map fst];
      by rewrite IH.
Qed.

Lemma sanitize_object_with_distinct_keys_witness :
  sanitize (VObj [("a<b", VStr "x>y"); ("$where", VNull); ("n", of_Z 1)])
  = VObj [("a<b", VStr "xy"); ("n", of_Z 1)].
Proof.
  apply (proj1 (sanitize_object_with_distinct_keys
                  [("a<b", VStr "x>y"); ("$where", VNull); ("n", of_Z 1)]
                  ltac:(refine (bool_decide_unpack _ _); vm_compute; exact I))).
Defined.

Lemma distinct_keys_arr l :
  distinct_keys (VArr l) <-> Forall distinct_keys l.
Proof.
  cbn [distinct_keys]. induction l as [|x r IH]; [split; by constructor|].
  rewrite IH, Forall_cons. tauto.
Qed.

Lemma distinct_keys_obj kvs :
  distinct_keys (VObj kvs)
  <-> NoDup (map fst kvs) /\ Forall (fun kv => distinct_keys (snd kv)) kvs.
Proof.
  cbn [distinct_keys].
  assert (H : (fix all (kvs : list (string * value)) : Prop :=
                 match kvs with
                 | [] => True
                 | kv :: r => distinct_keys (snd kv) /\ all r
                 end) kvs <-> Forall (fun kv => distinct_keys (snd kv)) kvs).
  { induction kvs as [|x r IH]; [split; by constructor|].
    rewrite IH, Forall_cons. tauto. }
  by rewrite H.
Qed.

Lemma forallb_is_stripped l :
  forallb (fun c => negb (is_stripped c)) l
  = forallb (fun c => negb (existsb (Ascii.eqb c) forbidden)) l.
Proof.
  induction l as [|c r IH]; [reflexivity|].
  cbn [forallb]. by rewrite IH, is_stripped_forbidden.
Qed.

(** X2. A tree that is already clean (no forbidden character in a string
    value, no dropped key) and whose objects have distinct keys comes out
    of [sanitize] unchanged. *)
Theorem sanitize_leaves_clean_trees_alone v :
  distinct_keys v -> is_clean v = true -> sanitize v = v.
Proof.
  induction v as [| | | |s|l IH|kvs IH] using value_ind; try reflexivity.
  - intros _ Hclean. cbn [sanitize]. f_equal. apply strip_fixed.
    cbn [is_clean] in Hclean. by rewrite forallb_is_stripped.
  - intros Hkeys Hclean. apply distinct_keys_arr in Hkeys.
    cbn [sanitize is_clean] in *. f_equal.
    induction l as [|x r IHr]; [reflexivity|].
    apply Forall_cons in IH as [IHx IHl]. apply Forall_cons in Hkeys as [Hx Hr].
    cbn [forallb] in Hclean. apply andb_prop in Hclean as [Hcx Hcr].
    cbn [map]. rewrite IHx by done. by rewrite IHr.
  - intros Hkeys Hclean. apply distinct_keys_obj in Hkeys as [Hnd Hkeys].
    rewrite sanitize_obj. f_equal.
    apply (sanitize_fold_fixed kvs []); [exact Hnd|].
    cbn [is_clean] in Hclean. rewrite forallb_forall in Hclean.
    rewrite List.Forall_forall in IH, Hkeys. apply List.Forall_forall.
    intros [k x] Hin. specialize (Hclean _ Hin). cbn [fst snd] in *.
    apply andb_prop in Hclean as [Hk Hx]. apply andb_prop in Hk as [Hd Hp].
    apply negb_true_iff in Hd, Hp. split.
    + unfold dropped. by rewrite Hd, Hp.
    + apply (IH _ Hin); [apply (Hkeys _ Hin) | exact Hx].
Qed.

Lemma sanitize_leaves_clean_trees_alone_witness :
  sanitize (VObj [("query", VStr "rocq"); ("tags", VArr [VStr "a"; VNull])])
  = VObj [("query", VStr "rocq"); ("tags", VArr [VStr "a"; VNull])].
Proof.
  apply sanitize_leaves_clean_trees_alone.
  - cbn. split; [|tauto].
    refine (bool_decide_unpack _ _). vm_compute. exact I.
  - reflexivity.
Defined.

(* ===================================================================== *)
(** * More on checkAuth *)
(* ===================================================================== *)

Lemma timingSafeEqual_refl a : timingSafeEqual a a = true.
Proof. by apply timingSafeEqual_spec. Qed.

(** X3. For a request that presents a string as its token, [checkAuth]
    lets it through exactly when the token is not empty and is the
    configured secret. *)
Theorem checkAuth_accepts_exactly_the_secret E request token :
  auth_token E request = VStr token ->
  checkAuth E request = Ok tt
  <-> token <> "" /\ SHARED_SECRET E = Some token.
Proof.
  intros Htoken. split.
  - intros Hok. destruct (SHARED_SECRET E) as [secret|] eqn:Hsecret.
    + destruct (decide (token = secret)) as [->|Hne].
      * split; [|reflexivity]. intros ->.
        unfold checkAuth in Hok. rewrite Hsecret, Htoken in Hok.
        discriminate Hok.
      * rewrite (checkAuth_rejects E request token secret) in Hok by done.
        discriminate Hok.
    + unfold checkAuth in Hok. rewrite Hsecret in Hok. discriminate Hok.
  - intros [Hne Hsecret]. unfold checkAuth. rewrite Hsecret, Htoken.
    cbn [truthy]. apply String.eqb_neq in Hne. rewrite Hne. cbn [negb orb Buffer_of].
    by rewrite Nat.eqb_refl, timingSafeEqual_refl.
Qed.

Lemma checkAuth_accepts_exactly_the_secret_witness :
  checkAuth (Sample.env Sample.unreachable (Some "abc"))
    (tool_request_auth (VStr "abc") (VStr "grok_models") (VObj []))
  = Ok tt.
Proof.
  apply (checkAuth_accepts_exactly_the_secret
           (Sample.env Sample.unreachable (Some "abc"))
           (tool_request_auth (VStr "abc") (VStr "grok_models") (VObj [])) "abc").
  - reflexivity.
  - split; [discriminate | reflexivity].
Defined.

(** X4. [checkAuth] is not optional: with no secret configured, or an
    empty one, it rejects every request, whatever the request presents;
    and with a secret it rejects every request without a token (or with a
    falsy one). *)
Theorem checkAuth_needs_a_secret_and_a_token E request :
  SHARED_SECRET E = None \/ SHARED_SECRET E = Some ""
  \/ truthy (auth_token E request) = false ->
  checkAuth E request
  = Throw (AuthError "Unauthorized: invalid or missing auth token").
Proof.
  unfold checkAuth. intros [-> | [-> | Hfalsy]]; [reflexivity| |].
  - by rewrite orb_true_r.
  - rewrite Hfalsy. by destruct (SHARED_SECRET E).
Qed.

Lemma checkAuth_needs_a_secret_and_a_token_witness :
  checkAuth (Sample.env Sample.unreachable None)
    (tool_request_auth (VStr "abc") (VStr "grok_models") (VObj []))
  = Throw (AuthError "Unauthorized: invalid or missing auth token").
Proof.
  apply checkAuth_needs_a_secret_and_a_token. left. reflexivity.
Defined.

(* ===================================================================== *)
(** * Validation failures *)
(* ===================================================================== *)






Lemma strip_not_string v : (forall s, v <> VStr s) -> forall s, sanitize v <> VStr s.
Proof. destruct v; try discriminate. intros H. by destruct (H s). Qed.




(* ===================================================================== *)
(** * More on chatCompletion *)
(* ===================================================================== *)

(** X7. A [chatCompletion] that misses the cache and whose upstream call
    fails has sent exactly one request and has cached nothing. What it
    throws is a plain Error "Grok API Error: <status> - <message>" for an
    Axios error, where <message> is the error message of the API when
    there is one and the message of the Axios error otherwise (when the
    message of the API has no string conversion, the TypeError of
    the conversion is thrown instead); any other error is rethrown as it
    is. *)
Theorem failed_chatCompletion_caches_nothing E request st e :
  truthy (fst (LRU.get (now st) (chat_key E request) (cache st))) = false ->
  outcome (upstream E (http_log st) (chat_call E request)) = Throw e ->
  exists st1,
    chatCompletion E request st = (Throw (grok_api_error E e), st1)
    /\ http_log st1 = http_log st ++ [chat_call E request]
    /\ cache st1 = snd (LRU.get (now st) (chat_key E request) (cache st))
    /\ (isAxiosError e = false -> grok_api_error E e = e)
    /\ (forall status apiMessage msg,
          e = AxiosError status apiMessage msg ->
          (truthy apiMessage = false ->
           grok_api_error E e
           = OtherError (Some ("Grok API Error: "
                               +:+ ToString (plat E)
                                     (match status with
                                      | Some z => of_Z z
                                      | None => VUndef
                                      end)
                               +:+ " - " +:+ msg)))
          /\ (forall shown,
                truthy apiMessage = true ->
                to_string (plat E) apiMessage = Ok shown ->
                grok_api_error E e
                = OtherError (Some ("Grok API Error: "
                                    +:+ ToString (plat E)
                                          (match status with
                                           | Some z => of_Z z
                                           | None => VUndef
                                           end)
                                    +:+ " - " +:+ shown)))
          /\ (printable apiMessage = false ->
              grok_api_error E e
              = OtherError (Some "Cannot convert object to primitive value"))).
Proof.
  intros Hmiss Hout.
  destruct (chatCompletion_rejected E request st e Hmiss Hout)
    as (st1 & Hrun & Hlog & Hcache & _).
  exists st1. split; [exact Hrun|]. split; [exact Hlog|]. split; [exact Hcache|].
  split; [by destruct e|].
  intros status apiMessage msg ->. cbn [grok_api_error].
  unfold api_error_text, rbind, or_else. split; [|split].
  - intros Hfalsy. rewrite Hfalsy. by destruct status.
  - intros shown Htruthy Hshown. rewrite Htruthy, Hshown. by destruct status.
  - intros Hp.
    assert (Htruthy : truthy apiMessage = true) by (by destruct apiMessage).
    rewrite Htruthy.
    destruct (to_string_cases (plat E) apiMessage) as [(shown & _ & Hyes) | [-> _]];
      [congruence|]. by destruct status.
Qed.

Lemma failed_chatCompletion_caches_nothing_witness :
  let E := Sample.env Sample.unreachable None in
  exists st1,
    chatCompletion E ping_request Sample.init
    = (Throw (OtherError (Some "Grok API Error: undefined - connect ECONNREFUSED")),
       st1)
    /\ cache st1 = [].
Proof.
  intros E.
  destruct (failed_chatCompletion_caches_nothing E ping_request Sample.init
              (AxiosError None VUndef "connect ECONNREFUSED"))
    as (st1 & Hrun & _ & Hcache & _); [reflexivity | reflexivity |].
  exists st1. split; [exact Hrun | exact Hcache].
Defined.



Lemma obj_get_obj_set k k' v (o : object) :
  obj_get k (obj_set k' v o) = if decide (k = k') then v else obj_get k o.
Proof.
  induction o as [|[k0 v0] r IH]; cbn [obj_set obj_get].
  - reflexivity.
  - destruct (decide (k' = k0)) as [->|Hne]; cbn [obj_get].
    + by destruct (decide (k = k0)).
    + destruct (decide (k = k0)) as [->|Hne'].
      * destruct (decide (k0 = k')); [by subst|reflexivity].
      * exact IH.
Qed.

Lemma obj_get_absent k (o : object) : k ∉ map fst o -> obj_get k o = VUndef.
Proof.
  induction o as [|[k0 v0] r IH]; [reflexivity|].
  cbn [map obj_get]. change (fst (k0, v0)) with k0. intros Hk.
  apply not_elem_of_cons in Hk as [Hne Hr].
  destruct (decide (k = k0)); [contradiction | by apply IH].
Qed.

(** In [{...a, ...b}] a key of [b] has the value it has in [b], and any
    other key the value it has in [a]. *)
Lemma obj_get_spread (a b : object) k :
  NoDup (map fst b) ->
  obj_get k (obj_spread a b)
  = if decide (k ∈ map fst b) then obj_get k b else obj_get k a.
Proof.
  unfold obj_spread. revert a.
  induction b as [|[k0 v0] r IH]; intros a Hnd.
  - cbn. destruct (decide (k ∈ [])) as [Hin|]; [by apply elem_of_nil in Hin|done].
  - cbn [fold_left map obj_get]. change (fst (k0, v0)) with k0.
    change (snd (k0, v0)) with v0. cbn [map] in Hnd.
    change (fst (k0, v0)) with k0 in Hnd.
    apply NoDup_cons in Hnd as [Hfresh Hnd].
    rewrite IH by exact Hnd. rewrite obj_get_obj_set.
    destruct (decide (k = k0)) as [->|Hne].
    + destruct (decide (k0 ∈ map fst r)); [contradiction|].
      destruct (decide (k0 ∈ k0 :: map fst r)) as [|Hout]; [reflexivity|].
      exfalso. apply Hout. by left.
    + destruct (decide (k ∈ map fst r)) as [Hin|Hout].
      * destruct (decide (k ∈ k0 :: map fst r)) as [|Hout']; [reflexivity|].
        exfalso. apply Hout'. by right.
      * destruct (decide (k ∈ k0 :: map fst r)) as [Hin'|]; [|reflexivity].
        apply elem_of_cons in Hin' as [?|?]; contradiction.
Qed.

(** X9. On a cache miss [chatCompletion] posts the defaults overridden by
    the request: every key the request has, even with the value
    [undefined], replaces the default, and a default is posted only for a
    key the request does not have. The [grok_chat] case always passes the
    keys [model], [temperature] and [max_tokens], so what is posted for
    them is what the caller gave ([undefined] when absent), never the
    configured default. *)
Theorem request_overrides_defaults E request st :
  NoDup (map fst request) ->
  truthy (fst (LRU.get (now st) (chat_key E request) (cache st))) = false ->
  http_log (snd (chatCompletion E request st))
  = http_log st ++ [ {| method := "POST"; path := "/chat/completions";
                        body := VObj (full_request E request) |} ]
  /\ (forall k, k ∈ map fst request ->
                obj_get k (full_request E request) = obj_get k request)
  /\ ("model" ∉ map fst request ->
      obj_get "model" (full_request E request) = VStr (model (config E)))
  /\ ("temperature" ∉ map fst request ->
      obj_get "temperature" (full_request E request) = VNum (temperature (config E)))
  /\ (forall data,
        obj_get "model" (full_request E (chat_args E data)) = field E data "model"
        /\ obj_get "temperature" (full_request E (chat_args E data))
           = field E data "temperature"
        /\ obj_get "max_tokens" (full_request E (chat_args E data))
           = field E data "max_tokens").
Proof.
  intros Hnd Hmiss. split; [by apply chatCompletion_miss_log|].
  split; [|split; [|split]].
  - intros k Hk. unfold full_request. rewrite obj_get_spread by exact Hnd.
    by destruct (decide (k ∈ map fst request)).
  - intros Hk. unfold full_request. rewrite obj_get_spread by exact Hnd.
    destruct (decide ("model" ∈ map fst request)); [contradiction|].
    cbn [obj_get]. destruct (decide ("model" = "model")); [|done].
    by rewrite (obj_get_absent "model" request Hk).
  - intros Hk. unfold full_request. rewrite obj_get_spread by exact Hnd.
    destruct (decide ("temperature" ∈ map fst request)); [contradiction|].
    by rewrite (obj_get_absent "temperature" request Hk).
  - intros data. repeat split; reflexivity.
Qed.

Lemma request_overrides_defaults_witness :
  let E := Sample.env Sample.unreachable None in
  obj_get "model" (full_request E [("model", VUndef); ("max_tokens", of_Z 10)])
  = VUndef
  /\ obj_get "temperature" (full_request E [("model", VUndef); ("max_tokens", of_Z 10)])
     = VNum (Fin (7 # 10)).
Proof.
  intros E.
  destruct (request_overrides_defaults E [("model", VUndef); ("max_tokens", of_Z 10)]
              Sample.init)
    as (_ & Hgiven & _ & Hdefault & _).
  - refine (bool_decide_unpack _ _). vm_compute. exact I.
  - reflexivity.
  - split.
    + rewrite Hgiven; [reflexivity|]. apply elem_of_cons. by left.
    + rewrite Hdefault; [reflexivity|].
      refine (bool_decide_unpack _ _). vm_compute. exact I.
Defined.

(** A value written before the TTL started to run out is not read back once
    the TTL is over. *)
Lemma LRU_get_stale start t k v c :
  truthy v = true ->
  (LRU.ttl < t - start)%Z ->
  fst (LRU.get t k (LRU.set start k v c)) = VUndef.
Proof.
  intros Hv Ht. unfold LRU.set.
  assert (Hset : (match v with
                  | VUndef => LRU.remove k c
                  | _ => firstn LRU.max
                           ({| LRU.e_key := k; LRU.e_val := v; LRU.e_start := start |}
                            :: LRU.remove k c)
                  end)
                 = {| LRU.e_key := k; LRU.e_val := v; LRU.e_start := start |}
                   :: firstn 99 (LRU.remove k c)).
  { destruct v; try reflexivity. discriminate Hv. }
  rewrite Hset. unfold LRU.get, LRU.find. cbn [List.find LRU.e_key].
  rewrite bool_decide_eq_true_2 by reflexivity.
  unfold LRU.stale. cbn [LRU.e_start LRU.e_val].
  destruct (Z.ltb_spec LRU.ttl (t - start)); [reflexivity | lia].
Qed.

(** X10. A cached chat payload is not served after its TTL: an identical
    [chatCompletion] issued more than five minutes after the payload was
    cached goes to the upstream again. *)
Theorem stale_payload_is_fetched_again E request st data start c0 :
  cache st = LRU.set start (chat_key E request) data c0 ->
  truthy data = true ->
  (LRU.ttl < now st - start)%Z ->
  http_log (snd (chatCompletion E request st))
  = http_log st ++ [chat_call E request].
Proof.
  intros Hcache Hdata Hlate. apply chatCompletion_miss_log.
  by rewrite Hcache, (LRU_get_stale start (now st) _ data c0 Hdata Hlate).
Qed.

Lemma stale_payload_is_fetched_again_witness :
  let E := Sample.env (Sample.chat_only "hello") None in
  let st1 := snd (chatCompletion E ping_request Sample.init) in
  length (http_log (snd (chatCompletion E ping_request (set_now 300011 st1)))) = 2.
Proof.
  intros E st1.
  rewrite (stale_payload_is_fetched_again E ping_request (set_now 300011 st1)
             (Sample.chat_reply "hello") 10 []);
    [reflexivity | reflexivity | reflexivity | vm_compute; reflexivity].
Defined.

(* ===================================================================== *)
(** * The answer of a chat completion *)
(* ===================================================================== *)




(* ===================================================================== *)
(** * More on getModels *)
(* ===================================================================== *)

Lemma mapM_total {A B} (f : A -> result B) (g : A -> B) l :
  Forall (fun x => f x = Ok (g x)) l -> mapM f l = Ok (map g l).
Proof.
  induction 1 as [|x r Hx Hr IH]; [reflexivity|].
  cbn [mapM map]. by rewrite Hx, IH.
Qed.

Lemma mapM_fails {A B} (f : A -> result B) l x :
  In x l -> (exists e, f x = Throw e) -> exists e, mapM f l = Throw e.
Proof.
  induction l as [|y r IH]; [intros []|].
  intros Hin Hx. cbn [mapM]. destruct (f y) as [b|e] eqn:Hy; [|eauto].
  destruct Hin as [-> | Hin]; [destruct Hx as [e He]; congruence|].
  destruct (IH Hin Hx) as [e ->]. eauto.
Qed.

(** X12. What [getModels] returns when the models endpoint answers. With a
    [data] list without [null] entries it returns the [id] of every entry,
    in order (an entry without [id] gives [undefined]); with no [data] it
    returns the one default identifier and not the fallback list; with a
    [data] list holding a [null] entry, or a [data] that is neither a
    list nor [null] nor [undefined] (an object, a string, a number, a
    boolean), it returns the fallback list. *)
Theorem getModels_reads_the_ids E single fallback st response :
  outcome (upstream E (http_log st) models_call) = Ok (VObj response) ->
  (forall entries,
     obj_get "data" response = VArr entries ->
     Forall (fun m => nullish m = false) entries ->
     fst (getModels_with E single fallback st)
     = Ok (map (fun m => opt E m "id") entries))
  /\ (nullish (obj_get "data" response) = true ->
      fst (getModels_with E single fallback st) = Ok (map VStr single))
  /\ (forall entries,
        obj_get "data" response = VArr entries ->
        In VNull entries ->
        fst (getModels_with E single fallback st) = Ok (map VStr fallback))
  /\ (nullish (obj_get "data" response) = false ->
      (forall entries, obj_get "data" response <> VArr entries) ->
      fst (getModels_with E single fallback st) = Ok (map VStr fallback)).
Proof.
  intros Hout.
  unfold getModels_with, try_catch, fetch_models, bind, http, lift, prop.
  rewrite Hout. cbn [get_prop]. split; [|split; [|split]].
  - intros entries -> Hentries. cbn [nullish js_map].
    rewrite (mapM_total _ (fun m => opt E m "id")); [reflexivity|].
    eapply Forall_impl; [exact Hentries|]. intros m Hm.
    unfold opt, get_opt, prop. by destruct m.
  - intros ->. reflexivity.
  - intros entries -> Hnull. cbn [nullish js_map].
    destruct (mapM_fails (fun m => get_prop (str_length (plat E)) m "id")
                entries VNull Hnull) as [e ->]; [|reflexivity].
    eexists. reflexivity.
  - intros Hdata Hlist.
    destruct (obj_get "data" response) as [| | | | |entries|]; try discriminate Hdata;
      try reflexivity.
    by destruct (Hlist entries).
Qed.

Lemma getModels_reads_the_ids_witness :
  let E :=
    Sample.env
      (fun _ _ => {| delay := 10;
                     outcome := Ok (VObj [("data",
                                           VArr [VObj [("id", VStr "grok-4")];
                                                 VObj [("id", VStr "grok-3")]])]) |})
      None in
  fst (Current.getModels E Sample.init) = Ok [VStr "grok-4"; VStr "grok-3"].
Proof.
  intros E.
  unfold Current.getModels.
  rewrite (proj1 (getModels_reads_the_ids E ["grok-4.1-fast"]
                    ["grok-4.1-fast"; "grok-4-1-fast-reasoning";
                     "grok-4-1-fast-non-reasoning"; "grok-code-fast-1"; "grok-4"]
                    Sample.init
                    [("data", VArr [VObj [("id", VStr "grok-4")];
                                    VObj [("id", VStr "grok-3")]])]
                    eq_refl)
             [VObj [("id", VStr "grok-4")]; VObj [("id", VStr "grok-3")]]
             eq_refl ltac:(repeat constructor)).
  reflexivity.
Defined.


(* ===================================================================== *)
(** * What an operation does to the trace, the metrics and the clock *)
(* ===================================================================== *)

Lemma quiet_mono {A} n k (m : M A) : quiet n m -> n <= k -> quiet k m.
Proof.
  intros Hm Hle st. destruct (Hm st) as ((l & Hl & Hlen) & H).
  split; [|exact H]. exists l. split; [exact Hl | lia].
Qed.

Lemma quiet_pure {A} (m : M A) : (forall st, snd (m st) = st) -> quiet 0 m.
Proof.
  intros Hm st. rewrite Hm. split; [|repeat split; lia].
  exists []. split; [by rewrite app_nil_r | reflexivity].
Qed.

Lemma quiet_ret {A} (a : A) : quiet 0 (ret a).
Proof. by apply quiet_pure. Qed.

Lemma quiet_throw {A} e : quiet 0 (@throw A e).
Proof. by apply quiet_pure. Qed.

Lemma quiet_lift {A} (r : result A) : quiet 0 (lift r).
Proof. by apply quiet_pure. Qed.

Lemma quiet_cache_get k : quiet 0 (cache_get k).
Proof.
  intros st. unfold cache_get. destruct (LRU.get (now st) k (cache st)) as [v c].
  cbn. split; [|repeat split; lia].
  exists []. split; [by rewrite app_nil_r | reflexivity].
Qed.

Lemma quiet_cache_set k v : quiet 0 (cache_set k v).
Proof.
  intros st. cbn. split; [|repeat split; lia].
  exists []. split; [by rewrite app_nil_r | reflexivity].
Qed.

Lemma quiet_http E c : quiet 1 (http E c).
Proof.
  intros st. cbn. split; [|repeat split; lia].
  exists [c]. split; reflexivity.
Qed.

Lemma quiet_bind {A B} n k (m : M A) (f : A -> M B) :
  quiet n m -> (forall a, quiet k (f a)) -> quiet (n + k) (bind m f).
Proof.
  intros Hm Hf st. unfold bind.
  destruct (Hm st) as ((l & Hl & Hlen) & Hr & He & Hh & Hn).
  destruct (m st) as [[a|e] st1]; cbn [snd] in *.
  - destruct (Hf a st1) as ((l' & Hl' & Hlen') & Hr' & He' & Hh' & Hn').
    split; [|repeat split; try congruence; lia].
    exists (l ++ l'). rewrite Hl', Hl, length_app. split; [by rewrite app_assoc | lia].
  - split; [|repeat split; assumption].
    exists l. split; [exact Hl | lia].
Qed.

(** What is computed without effects, then used. *)
Lemma quiet_bind_lift {A B} n (r : result A) (f : A -> M B) :
  (forall a, quiet n (f a)) -> quiet n (bind (lift r) f).
Proof.
  intros Hf. apply (quiet_bind 0 n); [apply quiet_lift | exact Hf].
Qed.

Lemma quiet_try_catch {A} n k (m : M A) (h : error -> M A) :
  quiet n m -> (forall e, quiet k (h e)) -> quiet (n + k) (try_catch m h).
Proof.
  intros Hm Hh st. unfold try_catch.
  destruct (Hm st) as ((l & Hl & Hlen) & Hr & He & Hhist & Hn).
  destruct (m st) as [[a|e] st1]; cbn [snd] in *.
  - split; [|repeat split; assumption].
    exists l. split; [exact Hl | lia].
  - destruct (Hh e st1) as ((l' & Hl' & Hlen') & Hr' & He' & Hh' & Hn').
    split; [|repeat split; try congruence; lia].
    exists (l ++ l'). rewrite Hl', Hl, length_app. split; [by rewrite app_assoc | lia].
Qed.

Lemma quiet_limiter {A} n (job : M A) : quiet n job -> quiet n (limiter_schedule job).
Proof.
  intros Hjob st. unfold limiter_schedule.
  match goal with
  | |- context [job ?s] => destruct (Hjob s) as ((l & Hl & Hlen) & Hr & He & Hh & Hn)
  end.
  cbn [http_log requestCounter errorCounter latencyHistogram now
       set_last_launch set_now] in *.
  split; [by exists l|]. repeat split; try assumption.
  destruct (last_launch st); lia.
Qed.

Lemma quiet_if {A} n (b : bool) (m1 m2 : M A) :
  quiet n m1 -> quiet n m2 -> quiet n (if b then m1 else m2).
Proof. by destruct b. Qed.

(** [chatCompletion] sends at most one request. *)
Lemma quiet_chatCompletion E request : quiet 1 (chatCompletion E request).
Proof.
  unfold chatCompletion. apply (quiet_bind 0 1); [apply quiet_cache_get|].
  intros cached. apply quiet_if; [apply (quiet_mono 0); [apply quiet_ret | lia]|].
  apply (quiet_try_catch 1 0).
  - apply (quiet_bind 1 0); [apply quiet_limiter, quiet_http|].
    intros data. apply (quiet_bind 0 0); [apply quiet_cache_set|].
    intros _. apply quiet_ret.
  - intros e. destruct e; try apply quiet_throw.
    apply quiet_bind_lift. intros shown. apply quiet_throw.
Qed.

Lemma quiet_testConnection E : quiet 1 (testConnection E).
Proof.
  unfold testConnection. apply (quiet_try_catch 1 0).
  - apply (quiet_bind 1 0); [apply quiet_chatCompletion|]. intros _. apply quiet_ret.
  - intros _. apply quiet_ret.
Qed.

Lemma quiet_getModels_with E single fallback :
  quiet 1 (getModels_with E single fallback).
Proof.
  unfold getModels_with, fetch_models. apply (quiet_try_catch 1 0).
  - apply (quiet_bind 1 0); [apply quiet_http|]. intros response.
    apply quiet_bind_lift. intros data.
    apply quiet_if; [apply quiet_ret|].
    apply quiet_bind_lift. intros ids. apply quiet_ret.
  - intros _. apply quiet_ret.
Qed.

Lemma quiet_current_liveSearch E request : quiet 1 (Current.liveSearch E request).
Proof.
  unfold Current.liveSearch. apply (quiet_bind 0 1); [apply quiet_cache_get|].
  intros cached. apply quiet_if; [apply (quiet_mono 0); [apply quiet_ret | lia]|].
  apply (quiet_try_catch 1 0); [|intros e; apply quiet_throw].
  apply quiet_bind_lift. intros chatRequest.
  apply (quiet_bind 1 0); [apply quiet_chatCompletion|]. intros chatResponse.
  apply quiet_bind_lift. intros msg.
  apply quiet_bind_lift. intros results.
  apply (quiet_bind 0 0); [apply quiet_cache_set|]. intros _. apply quiet_ret.
Qed.

Lemma quiet_current_ask E question context systemPrompt options :
  quiet 1 (Current.ask E question context systemPrompt options).
Proof.
  unfold Current.ask. apply quiet_bind_lift. intros messages.
  apply (quiet_bind 1 0); [apply quiet_chatCompletion|].
  intros response. apply quiet_lift.
Qed.

Lemma quiet_simulateSearch E request : quiet 1 (Legacy.simulateSearch E request).
Proof.
  unfold Legacy.simulateSearch. apply quiet_bind_lift. intros prompt.
  apply (quiet_bind 1 0); [apply quiet_chatCompletion|].
  intros chatResponse. apply (quiet_try_catch 0 0); [apply quiet_lift|].
  intros e. apply quiet_bind_lift. intros _.
  apply quiet_bind_lift. intros results. apply quiet_ret.
Qed.

Lemma quiet_legacy_liveSearch E request : quiet 2 (Legacy.liveSearch E request).
Proof.
  unfold Legacy.liveSearch. apply (quiet_bind 0 2); [apply quiet_cache_get|].
  intros cached. apply quiet_if; [apply (quiet_mono 0); [apply quiet_ret | lia]|].
  apply (quiet_try_catch 1 1).
  - apply (quiet_bind 1 0); [apply quiet_limiter, quiet_http|].
    intros data. apply (quiet_bind 0 0); [apply quiet_cache_set|].
    intros _. apply quiet_ret.
  - intros e. apply quiet_if; [apply quiet_simulateSearch|].
    apply (quiet_mono 0); [apply quiet_throw | lia].
Qed.

Lemma quiet_legacy_ask E question context systemPrompt options :
  quiet 3 (Legacy.ask E question context systemPrompt options).
Proof.
  unfold Legacy.ask. apply quiet_bind_lift. intros messages.
  apply (quiet_bind 2 1).
  - apply quiet_if; [|apply (quiet_mono 0); [apply quiet_ret | lia]].
    apply (quiet_try_catch 2 0); [|intros e; apply quiet_ret].
    apply (quiet_bind 2 0); [apply quiet_legacy_liveSearch|]. intros searchResults.
    apply quiet_bind_lift. intros results.
    apply quiet_bind_lift. intros len.
    apply quiet_bind_lift. intros n.
    apply quiet_if; [|apply quiet_ret].
    apply quiet_bind_lift. intros parts. apply quiet_ret.
  - intros pushed. apply (quiet_bind 1 0); [apply quiet_chatCompletion|].
    intros response. apply quiet_lift.
Qed.

Lemma quiet_current_client E : quiet_client 1 (Current.client E).
Proof.
  split; [|split; [|split; [|split]]]; cbn.
  - intros. apply quiet_current_ask.
  - intros. apply quiet_chatCompletion.
  - intros. apply quiet_current_liveSearch.
  - apply quiet_getModels_with.
  - apply quiet_testConnection.
Qed.

Lemma quiet_legacy_client E : quiet_client 3 (Legacy.client E).
Proof.
  split; [|split; [|split; [|split]]]; cbn.
  - intros. apply quiet_legacy_ask.
  - intros. apply (quiet_mono 1); [apply quiet_chatCompletion | lia].
  - intros. apply (quiet_mono 2); [apply quiet_legacy_liveSearch | lia].
  - apply (quiet_mono 1); [apply quiet_getModels_with | lia].
  - apply (quiet_mono 1); [apply quiet_testConnection | lia].
Qed.

Lemma observes_quiet {A} n start late (m : M A) :
  quiet n m -> observes n start false late m.
Proof.
  intros Hm st _. destruct (Hm st) as (Hl & Hr & He & Hh & Hn).
  repeat split; try assumption.
  destruct (fst (m st)); [by rewrite app_nil_r | by left].
Qed.

Lemma observes_throw {A} start timed late e : observes 0 start timed late (@throw A e).
Proof.
  intros st _. cbn. repeat split; try lia; [|by left].
  exists []. split; [by rewrite app_nil_r | reflexivity].
Qed.

Lemma observes_bind {A B} n k start timed late (m : M A) (f : A -> M B) :
  quiet n m -> (forall a, observes k start timed late (f a)) ->
  observes (n + k) start timed late (bind m f).
Proof.
  intros Hm Hf st Hstart. unfold bind.
  destruct (Hm st) as ((l & Hl & Hlen) & Hr & He & Hh & Hn).
  destruct (m st) as [[a|e] st1]; cbn [snd fst] in *.
  - destruct (Hf a st1) as ((l' & Hl' & Hlen') & Hr' & He' & Hn' & Hh'); [lia|].
    split; [|repeat split; try congruence; try lia].
    + exists (l ++ l'). rewrite Hl', Hl, length_app.
      split; [by rewrite app_assoc | lia].
    + by rewrite <- Hh.
  - split; [exists l; split; [exact Hl | lia]|].
    repeat split; try assumption. by left.
Qed.

(** Stopping the timer, then building the answer without effects: the
    answer is returned, or, in a case that formats late, its conversion to
    a string fails. *)
Lemma observes_stop {A} start late (r : result A) :
  (forall e, r = Throw e -> late = true /\ e = cannot_convert) ->
  observes 0 start true late (bind (end_timer start) (fun _ => lift r)).
Proof.
  intros Hr st _. unfold bind, end_timer, lift. cbn [fst snd].
  split; [exists []; split; [by rewrite app_nil_r | reflexivity]|].
  cbn [requestCounter errorCounter now latencyHistogram set_latencyHistogram].
  repeat split; try lia.
  destruct r as [a|e]; [reflexivity|].
  destruct (Hr e eq_refl) as [-> ->]. right. by repeat split.
Qed.

Lemma observes_mono {A} n k start timed late (m : M A) :
  observes n start timed late m -> n <= k -> observes k start timed late m.
Proof.
  intros Hm Hle st Hstart. destruct (Hm st Hstart) as ((l & Hl & Hlen) & H).
  split; [|exact H]. exists l. split; [exact Hl | lia].
Qed.

Lemma quiet_wrap {A} n what (m : M A) : quiet n m -> quiet n (wrap what m).
Proof.
  intros Hm. unfold wrap. apply (quiet_mono (n + 0)); [|lia].
  apply quiet_try_catch; [exact Hm|]. intros e. apply quiet_throw.
Qed.

Lemma is_str_eq name s : is_str name s = true -> name = VStr s.
Proof.
  destruct name; try discriminate. cbn. intros H. apply String.eqb_eq in H.
  by subst.
Qed.

Lemma to_string_throws P v e : to_string P v = Throw e -> e = cannot_convert.
Proof.
  destruct (to_string_cases P v) as [(shown & -> & _) | [-> _]];
    [discriminate | intros H; by injection H].
Qed.

Lemma models_text_throws E models e :
  models_text E models = Throw e -> e = cannot_convert.
Proof.
  unfold models_text, rbind.
  destruct (mapM _ models) as [lines|e'] eqn:Hlines; [discriminate|].
  intros H. injection H as <-. revert e' Hlines.
  induction models as [|model r IH]; intros e' Hlines; [discriminate|].
  cbn [mapM] in Hlines.
  destruct (to_string (plat E) model) as [shown|e0] eqn:Hmodel.
  - destruct (mapM _ r) as [ys|e1]; [discriminate|].
    injection Hlines as <-. by apply IH.
  - injection Hlines as <-. by apply to_string_throws in Hmodel.
Qed.


(** The [switch]: the client's share of requests, and one observation of
    the latency on every return but that of [grok_search]. *)
Lemma observes_dispatch E grokClient n start name safeArgs :
  quiet_client n grokClient ->
  observes n start (negb (is_str name "grok_search")) (formats_late name)
    (dispatch E grokClient start name safeArgs).
Proof.
  intros (Hask & Hchat & Hsearch & Hmodels & Htest). unfold dispatch.
  destruct (is_str name "grok_ask") eqn:H1.
  { apply is_str_eq in H1 as ->.
    change (negb (is_str (VStr "grok_ask") "grok_search")) with true.
    destruct (safeParse grokAskSchema safeArgs) as [data|];
      [|apply (observes_mono 0); [apply observes_throw | lia]].
    apply (observes_mono (n + 0)); [|lia].
    apply observes_bind; [apply quiet_wrap, Hask|]. intros response.
    apply (observes_stop start _ (Ok (text_envelope response))). discriminate. }
  destruct (is_str name "grok_chat") eqn:H2.
  { apply is_str_eq in H2 as ->.
    change (negb (is_str (VStr "grok_chat") "grok_search")) with true.
    destruct (safeParse grokChatSchema safeArgs) as [data|];
      [|apply (observes_mono 0); [apply observes_throw | lia]].
    apply (observes_mono (n + (0 + 0))); [|lia].
    apply observes_bind; [apply quiet_wrap, Hchat|]. intros response.
    apply observes_bind; [apply quiet_lift|]. intros assistantMessage.
    apply (observes_stop start _ (Ok (text_envelope assistantMessage))). discriminate. }
  destruct (is_str name "grok_search") eqn:H3.
  { cbn [negb]. apply observes_quiet.
    apply quiet_bind_lift. intros coerced.
    destruct (safeParse grokSearchSchema coerced) as [data|];
      [|apply (quiet_mono 0); [apply quiet_throw | lia]].
    apply (quiet_mono (n + 0)); [|lia].
    apply quiet_bind; [apply quiet_wrap, Hsearch|]. intros searchResults.
    apply quiet_lift. }
  cbn [negb].
  destruct (is_str name "grok_health") eqn:H4.
  { apply (observes_mono 0); [|lia]. intros st Hstart.
    unfold bind, end_timer. cbn [fst snd].
    split; [exists []; split; [by rewrite app_nil_r | reflexivity]|].
    cbn [requestCounter errorCounter now latencyHistogram set_latencyHistogram].
    repeat split; lia. }
  destruct (is_str name "grok_models") eqn:H5.
  { apply (observes_mono (n + 0)); [|lia].
    apply observes_bind; [exact Hmodels|]. intros models.
    assert (Hlate : formats_late name = true) by (unfold formats_late; by rewrite H5).
    rewrite Hlate. clear Hlate.
    assert (Hstop : forall st,
               (end_timer start ;;;
                shown <- lift (models_text E models) ;;
                ret (text_envelope (VStr shown))) st
               = (end_timer start ;;;
                  lift (shown <~ models_text E models ;;
                        Ok (text_envelope (VStr shown)))) st).
    { intros st. unfold bind, end_timer, lift, ret, rbind.
      by destruct (models_text E models). }
    intros st Hstart. rewrite Hstop. revert st Hstart.
    apply (observes_stop start true).
    intros e. unfold rbind.
    destruct (models_text E models) as [shown|e'] eqn:Htext; [discriminate|].
    intros H. injection H as <-. split; [reflexivity|].
    by apply models_text_throws in Htext. }
  destruct (is_str name "grok_test_connection") eqn:H6.
  { apply (observes_mono (n + 0)); [|lia].
    apply observes_bind; [exact Htest|]. intros isConnected.
    apply (observes_stop start _ (Ok _)). discriminate. }
  assert (Hlate : formats_late name = true).
  { unfold formats_late, registered_tools. cbn [existsb].
    by rewrite H1, H2, H3, H4, H5, H6. }
  rewrite Hlate. clear Hlate.
  assert (Hstop : forall st,
             (end_timer start ;;;
              shown <- lift (to_string (plat E) name) ;;
              ret (text_envelope (VStr ("Error: Unknown tool: " +:+ shown)))) st
             = (end_timer start ;;;
                lift (shown <~ to_string (plat E) name ;;
                      Ok (text_envelope (VStr ("Error: Unknown tool: " +:+ shown))))) st).
  { intros st. unfold bind, end_timer, lift, ret, rbind.
    by destruct (to_string (plat E) name). }
  apply (observes_mono 0); [|lia].
  intros st Hstart. rewrite Hstop. revert st Hstart.
  apply (observes_stop start true).
  intros e. unfold rbind.
  destruct (to_string (plat E) name) as [shown|e'] eqn:Htext; [discriminate|].
  intros H. injection H as <-. split; [reflexivity|].
  by apply to_string_throws in Htext.
Qed.

Lemma handle_body_cases E grokClient start request st :
  (exists e, handle_body E grokClient start request st = (Throw e, st))
  \/ (exists params,
        opt E request "params" = params
        /\ handle_body E grokClient start request st
           = dispatch E grokClient start (opt E params "name")
               (sanitize (opt E params "arguments")) st).
Proof.
  unfold handle_body, bind, lift, opt, get_opt.
  destruct (prop E request "params") as [params|e] eqn:Hparams; [|eauto].
  unfold prop in Hparams. rewrite Hparams.
  destruct (nullish params); [left; eexists; reflexivity|].
  right. exists params. split; reflexivity.
Qed.


(** What one tool call does, for a client that is quiet within [n]: it
    returns an envelope; either no error is counted and the latency was
    observed once, or not at all by [grok_search]; or an error is counted
    and the latency was observed once, or twice when a case that formats
    late failed to convert a value. *)
Lemma handleToolCall_effect E grokClient n request st :
  quiet_client n grokClient ->
  exists env st',
    handleToolCall E grokClient request st = (Ok env, st')
    /\ (exists l, http_log st' = http_log st ++ l /\ length l <= n)
    /\ requestCounter st'
       = <[ [] := S (default 0 (requestCounter st !! [])) ]> (requestCounter st)
    /\ (now st <= now st')%Z
    /\ ((errorCounter st' = errorCounter st
         /\ latencyHistogram st'
            = latencyHistogram st
              ++ (if is_str (requested_tool E request) "grok_search" then []
                  else [([], now st' - now st)%Z]))
        \/ (errorCounter st'
            = <[ [] := S (default 0 (errorCounter st !! [])) ]> (errorCounter st)
            /\ (latencyHistogram st'
                = latencyHistogram st ++ [([], now st' - now st)%Z]
                \/ (latencyHistogram st'
                    = latencyHistogram st
                      ++ [([], now st' - now st)%Z; ([], now st' - now st)%Z]
                    /\ env = text_envelope
                               (VStr "Error: Cannot convert object to primitive value")
                    /\ formats_late (requested_tool E request) = true)))).
Proof.
  intros Hclient. rewrite handleToolCall_unfold.
  destruct (handle_body_cases E grokClient (now st) request (counted st))
    as [[e ->] | (params & Hparams & ->)].
  { eexists _, _. split; [reflexivity|]. cbn.
    split; [exists []; split; [by rewrite app_nil_r | cbn; lia]|].
    split; [reflexivity|]. split; [lia|]. right. split; [reflexivity|]. by left. }
  pose proof (observes_dispatch E grokClient n (now st) (opt E params "name")
                (sanitize (opt E params "arguments")) Hclient (counted st))
    as Hobs.
  destruct Hobs as ((l & Hl & Hlen) & Hr & He & Hn & Hh); [cbn; lia|].
  assert (Hname : requested_tool E request = opt E params "name")
    by (unfold requested_tool; by rewrite Hparams).
  rewrite Hname.
  destruct (dispatch E grokClient (now st) (opt E params "name")
              (sanitize (opt E params "arguments")) (counted st))
    as [[env|e] st1]; cbn [fst snd] in *.
  - exists env, st1. split; [reflexivity|].
    split; [by exists l|]. split; [exact Hr|]. split; [exact Hn|].
    left. split; [exact He|].
    rewrite Hh. by destruct (is_str (opt E params "name") "grok_search").
  - exists (handleError e), (failed (now st) st1). split; [reflexivity|].
    cbn [failed http_log requestCounter errorCounter latencyHistogram now
         set_latencyHistogram set_errorCounter].
    split; [by exists l|]. split; [exact Hr|]. split; [exact Hn|].
    right. split; [by rewrite He|].
    destruct Hh as [-> | (Hlate & -> & ->)]; [by left|].
    right. split; [by rewrite <- app_assoc|]. split; [reflexivity | exact Hlate].
Qed.

(** X13. A tool call sends at most one request upstream with the client
    that searches through the chat completion, and at most three with the
    client that has the simulated-search fallback (the search, the
    simulated search and the chat completion of a [grok_ask] with
    [include_search]); the trace of requests is only ever appended to.
    Three is reached. *)
Theorem tool_call_sends_bounded_requests E request st :
  (exists l,
     http_log (snd (handleToolCall E (Current.client E) request st))
     = http_log st ++ l /\ length l <= 1)
  /\ (exists l,
        http_log (snd (handleToolCall E (Legacy.client E) request st))
        = http_log st ++ l /\ length l <= 3)
  /\ length (http_log (snd (handleToolCall
                              (Sample.env (Sample.chat_only "hello") None)
                              (Legacy.client (Sample.env (Sample.chat_only "hello") None))
                              (tool_request (VStr "grok_ask")
                                 (VObj [("question", VStr "why");
                                        ("include_search", VBool true)]))
                              Sample.init))) = 3.
Proof.
  split; [|split].
  - destruct (handleToolCall_effect E (Current.client E) 1 request st
                (quiet_current_client E)) as (env & st' & -> & Hlog & _).
    exact Hlog.
  - destruct (handleToolCall_effect E (Legacy.client E) 3 request st
                (quiet_legacy_client E)) as (env & st' & -> & Hlog & _).
    exact Hlog.
  - vm_compute. reflexivity.
Qed.



(* ===================================================================== *)
(** * The results of the agentic search *)
(* ===================================================================== *)

Lemma mapM_length {A B} (f : A -> result B) l ys :
  mapM f l = Ok ys -> length ys = length l.
Proof.
  revert ys. induction l as [|x r IH]; intros ys; cbn [mapM].
  - intros H. by injection H as <-.
  - destruct (f x) as [y|]; [|discriminate].
    destruct (mapM f r) as [ys'|]; [|discriminate].
    intros H. injection H as <-. cbn. by rewrite (IH ys').
Qed.

Lemma found_results_length E content citations urls rs :
  Current.found_results E content citations urls = Ok rs ->
  length rs <= length urls.
Proof.
  revert rs. induction urls as [|url rest IH]; intros rs; cbn [Current.found_results].
  - intros H. by injection H as <-.
  - destruct (Current.citations_includes citations url) as [[|]|]; [| |discriminate].
    + intros H. specialize (IH rs H). cbn. lia.
    + destruct (Current.url_result E content (VStr url)); [|discriminate].
      destruct (Current.found_results E content citations rest) as [rs'|];
        [|discriminate].
      intros H. injection H as <-. specialize (IH rs' eq_refl). cbn. lia.
Qed.

(** The three stages of [parseSearchResults]: the results from the
    citations, those with the URLs of the text added, and the result. *)
Lemma parseSearchResults_stages E content citations maxResults results :
  Current.parseSearchResults E content citations maxResults = Ok results ->
  exists bound cited found,
    to_number (plat E) (or_else maxResults (of_Z 10)) = Ok bound
    /\ (cited = [] \/
        exists urls, Current.citations_slice E citations (or_else maxResults (of_Z 10))
                     = Ok urls
                     /\ length cited = length urls)
    /\ (found = cited \/
        exists s more,
          content = VStr s
          /\ found = cited ++ more
          /\ length more
             <= slice_end (num_sub bound (num_of_nat (length cited)))
                  (length (match_urls (plat E) s)))
    /\ ((found = [] /\ length results = 1) \/ (found <> [] /\ results = found)).
Proof.
  unfold Current.parseSearchResults.
  set (limit := or_else maxResults (of_Z 10)).
  destruct (if truthy citations
            then len <~ to_number (plat E) (opt E citations "length") ;;
                 Ok (num_lt (Fin 0) len)
            else Ok false) as [has|]; [|discriminate].
  cbn [rbind].
  assert (Hcited : forall cited,
             (if has then urls <~ Current.citations_slice E citations limit ;;
                          mapM (Current.url_result E content) urls
              else Ok []) = Ok cited ->
             cited = [] \/
             exists urls, Current.citations_slice E citations limit = Ok urls
                          /\ length cited = length urls).
  { intros cited. destruct has; [|intros H; left; by injection H].
    unfold rbind.
    destruct (Current.citations_slice E citations limit) as [urls|]; [|discriminate].
    intros H. right. exists urls. split; [reflexivity | by apply mapM_length in H]. }
  destruct (if has then urls <~ Current.citations_slice E citations limit ;;
                        mapM (Current.url_result E content) urls
            else Ok []) as [cited|]; [|discriminate].
  specialize (Hcited cited eq_refl). cbn [rbind].
  destruct (to_number (plat E) limit) as [bound|]; [|discriminate]. cbn [rbind].
  intros H. exists bound, cited.
  destruct (num_lt (num_of_nat (length cited)) bound).
  - destruct content as [| | | |s| |]; try discriminate.
    unfold rbind at 1 in H.
    destruct (Current.found_results E (VStr s) citations _) as [more|] eqn:Hmore;
      [|discriminate].
    cbn [rbind] in H.
    exists (cited ++ more). split; [reflexivity|]. split; [exact Hcited|].
    split; [right; exists s, more; repeat split;
            apply found_results_length in Hmore;
            rewrite length_firstn in Hmore; lia|].
    destruct (cited ++ more) as [|x r]; [|right; split; [done|congruence]].
    left. split; [reflexivity|]. unfold rbind in H.
    destruct (Current.content_substring E (VStr s) 300); [|discriminate].
    by injection H as <-.
  - cbn [rbind] in H.
    exists cited. split; [reflexivity|]. split; [exact Hcited|]. split; [by left|].
    destruct cited as [|x r]; [|right; split; [done|congruence]].
    left. split; [reflexivity|]. unfold rbind in H.
    destruct (Current.content_substring E content 300); [|discriminate].
    by injection H as <-.
Qed.

Lemma parseSearchResults_nonempty E content citations maxResults results :
  Current.parseSearchResults E content citations maxResults = Ok results ->
  exists x l, results = x :: l.
Proof.
  intros H.
  destruct (parseSearchResults_stages E content citations maxResults results H)
    as (bound & cited & found & _ & _ & _ & [[_ Hone] | [Hfound ->]]).
  - destruct results as [|x l]; [discriminate Hone | eauto].
  - destruct found as [|x l]; [contradiction | eauto].
Qed.

(** X15. A [liveSearch] of the client with the agentic search that misses
    the cache and returns never gives an empty result list: when neither
    the citations nor the text yield a result, one generic result is made
    up; [total_results] is the number of results and [search_time] is
    always 0.5. *)
Theorem agentic_search_never_returns_nothing E request st response st1 :
  truthy (fst (LRU.get (now st) (search_key E request) (cache st))) = false ->
  Current.liveSearch E request st = (Ok response, st1) ->
  exists x l,
    response
    = VObj [ ("results", VArr (x :: l));
             ("total_results", VNum (num_of_nat (S (length l))));
             ("search_time", VNum (Fin (1 # 2))) ].
Proof.
  intros Hmiss. unfold Current.liveSearch, bind, cache_get.
  destruct (LRU.get (now st) (search_key E request) (cache st)) as [cached c0].
  cbn [fst] in Hmiss. rewrite Hmiss. unfold try_catch, bind, lift, cache_set, ret, throw.
  destruct (Current.search_request E request) as [chatRequest|e]; [|discriminate].
  destruct (chatCompletion E chatRequest _)
    as [[chatResponse|e] st2]; [|discriminate].
  destruct (first_message E chatResponse) as [msg|e]; [|discriminate].
  destruct (Current.parseSearchResults E _ _ _) as [results|e] eqn:Hparse;
    [|discriminate].
  destruct (parseSearchResults_nonempty _ _ _ _ _ Hparse) as (x & l & ->).
  intros H. injection H as <- _. by exists x, l.
Qed.

Lemma agentic_search_never_returns_nothing_witness :
  let E := Sample.env (Sample.chat_only "hello") None in
  exists x l,
    fst (Current.liveSearch E [("query", VStr "test")] Sample.init)
    = Ok (VObj [ ("results", VArr (x :: l));
                 ("total_results", VNum (num_of_nat (S (length l))));
                 ("search_time", VNum (Fin (1 # 2))) ]).
Proof.
  intros E.
  destruct (agentic_search_never_returns_nothing E [("query", VStr "test")]
              Sample.init
              (match fst (Current.liveSearch E [("query", VStr "test")] Sample.init)
               with Ok v => v | Throw _ => VUndef end)
              (snd (Current.liveSearch E [("query", VStr "test")] Sample.init)))
    as (x & l & Hresponse); [reflexivity | vm_compute; reflexivity |].
  exists x, l. vm_compute in Hresponse |- *. by rewrite Hresponse.
Defined.

Lemma slice_end_integer n len :
  (0 <= n)%Z -> slice_end (Fin (inject_Z n)) len <= Z.to_nat n.
Proof.
  intros Hn. unfold slice_end, inject_Z. cbn [Qnum Qden].
  rewrite Z.quot_1_r. destruct (Z.ltb_spec n 0); lia.
Qed.

Lemma slice_end_difference n c len :
  (Z.of_nat c <= n)%Z ->
  slice_end (num_sub (Fin (inject_Z n)) (num_of_nat c)) len <= Z.to_nat n - c.
Proof.
  intros Hn. unfold slice_end, num_sub, num_of_nat, inject_Z, Qminus, Qplus, Qopp.
  cbn [Qnum Qden]. rewrite Z.quot_1_r.
  destruct (Z.ltb_spec (n * 1 + - Z.of_nat c * 1) 0); lia.
Qed.

(** X16. With a list of citations and a limit that is a positive integer
    (the given [max_results], or 10 when none is given),
    [parseSearchResults] returns at least one result and at most as many
    as the limit. *)
Theorem parseSearchResults_respects_the_limit E content cites maxResults n results :
  to_number (plat E) (or_else maxResults (of_Z 10)) = Ok (Fin (inject_Z n)) ->
  (0 < n)%Z ->
  Current.parseSearchResults E content (VArr cites) maxResults = Ok results ->
  1 <= length results <= Z.to_nat n.
Proof.
  intros Hlimit Hn H.
  destruct (parseSearchResults_stages E content (VArr cites) maxResults results H)
    as (bound & cited & found & Hbound & Hcited & Hfound & Hresults).
  rewrite Hlimit in Hbound. injection Hbound as <-.
  assert (Hc : length cited <= Z.to_nat n).
  { destruct Hcited as [-> | (urls & Hslice & ->)]; [cbn; lia|].
    cbn [Current.citations_slice] in Hslice. rewrite Hlimit in Hslice.
    cbn [rbind] in Hslice. injection Hslice as <-.
    rewrite length_firstn.
    pose proof (slice_end_integer n (length cites)) as Hslice.
    unfold slice_end, inject_Z in Hslice. cbn [Qnum Qden] in Hslice. lia. }
  assert (Hf : length found <= Z.to_nat n).
  { destruct Hfound as [-> | (s & more & _ & -> & Hmore)]; [exact Hc|].
    rewrite length_app.
    pose proof (slice_end_difference n (length cited)
                  (length (match_urls (plat E) s))). lia. }
  destruct Hresults as [[_ ->] | [Hne ->]]; [lia|].
  destruct found; [contradiction | cbn in *; lia].
Qed.

Lemma parseSearchResults_respects_the_limit_witness :
  let E := Sample.env (Sample.chat_only "hello") None in
  1 <= length (match Current.parseSearchResults E (VStr "hello") (VArr []) VUndef with
               | Ok results => results
               | Throw _ => []
               end) <= 10.
Proof.
  intros E.
  apply (parseSearchResults_respects_the_limit E (VStr "hello") [] VUndef 10%Z).
  - reflexivity.
  - lia.
  - vm_compute. reflexivity.
Defined.

(* ===================================================================== *)
(** * The client with the simulated search *)
(* ===================================================================== *)

(** X17. On a cache miss, the [liveSearch] of the client with the
    simulated search posts the search request as it is. What the endpoint
    answers is returned and cached without a look at its shape; an error
    that is not an Axios error is rethrown as it is, and the simulated
    search is not tried: the search request is the only one sent. *)
Theorem legacy_search_without_fallback E request st :
  truthy (fst (LRU.get (now st) (search_key E request) (cache st))) = false ->
  (forall data,
     outcome (upstream E (http_log st)
                {| method := "POST"; path := "/search"; body := VObj request |})
     = Ok data ->
     exists st1,
       Legacy.liveSearch E request st = (Ok data, st1)
       /\ http_log st1
          = http_log st
            ++ [ {| method := "POST"; path := "/search"; body := VObj request |} ]
       /\ cache st1
          = LRU.set (now st1) (search_key E request) data
              (snd (LRU.get (now st) (search_key E request) (cache st))))
  /\ (forall e,
        outcome (upstream E (http_log st)
                   {| method := "POST"; path := "/search"; body := VObj request |})
        = Throw e ->
        isAxiosError e = false ->
        exists st1,
          Legacy.liveSearch E request st = (Throw e, st1)
          /\ http_log st1
             = http_log st
               ++ [ {| method := "POST"; path := "/search"; body := VObj request |} ]).
Proof.
  intros Hmiss. unfold Legacy.liveSearch, bind, cache_get.
  destruct (LRU.get (now st) (search_key E request) (cache st)) as [cached c0].
  cbn [fst snd] in *. rewrite Hmiss.
  unfold try_catch, bind, limiter_schedule, post, http, cache_set, ret, throw.
  cbn [http_log set_last_launch set_now set_cache].
  split.
  - intros data ->. eexists. split; [reflexivity|]. split; reflexivity.
  - intros e -> Haxios. rewrite Haxios. eexists. split; reflexivity.
Qed.

Lemma legacy_search_without_fallback_witness :
  let E :=
    Sample.env (fun _ _ => {| delay := 10; outcome := Throw (OtherError (Some "boom")) |})
      None in
  fst (Legacy.liveSearch E [("query", VStr "test")] Sample.init)
  = Throw (OtherError (Some "boom")).
Proof.
  intros E.
  destruct (proj2 (legacy_search_without_fallback E [("query", VStr "test")]
                     Sample.init eq_refl)
              (OtherError (Some "boom")) eq_refl eq_refl) as (st1 & -> & _).
  reflexivity.
Defined.

(** X18. In the client with the simulated search, a search that fails
    does not fail [ask]: the error is dropped and the question goes to the
    chat completion without any search context, from the state the failed
    search left. (The messages are made before the search; when the
    context or the question has no string conversion, [ask] has thrown by
    then.) *)
Theorem ask_survives_a_failed_search
    E question context systemPrompt options messages st e st1 :
  ask_messages E question context systemPrompt = Ok messages ->
  truthy (opt E options "includeSearch") = true ->
  Legacy.liveSearch E [("query", question); ("max_results", of_Z 3)] st
  = (Throw e, st1) ->
  Legacy.ask E question context systemPrompt options st
  = (response <-
       chatCompletion E
         [ ("messages", VArr messages);
           ("model", opt E options "model");
           ("temperature", opt E options "temperature");
           ("max_tokens", opt E options "maxTokens") ] ;;
     lift (answer_of E response)) st1.
Proof.
  intros Hmessages Hsearch Hfail. unfold Legacy.ask. rewrite Hmessages, Hsearch.
  unfold bind at 1. unfold lift at 1.
  unfold bind at 1. unfold try_catch. unfold bind at 1. rewrite Hfail.
  cbn [ret]. by rewrite app_nil_r.
Qed.

Lemma ask_survives_a_failed_search_witness :
  let E :=
    Sample.env
      (fun _ c =>
         if String.eqb (path c) "/search"
         then {| delay := 10; outcome := Throw (OtherError (Some "boom")) |}
         else {| delay := 10; outcome := Ok (Sample.chat_reply "hello") |})
      None in
  fst (Legacy.ask E (VStr "why") VUndef VUndef
         (VObj [("includeSearch", VBool true)]) Sample.init)
  = Ok (VStr "hello").
Proof.
  intros E.
  rewrite (ask_survives_a_failed_search E (VStr "why") VUndef VUndef
             (VObj [("includeSearch", VBool true)])
             [VObj [("role", VStr "user"); ("content", VStr "why")]]
             Sample.init
             (OtherError (Some "boom"))
             (snd (Legacy.liveSearch E [("query", VStr "why"); ("max_results", of_Z 3)]
                     Sample.init)));
    [vm_compute; reflexivity | reflexivity | reflexivity | vm_compute; reflexivity].
Defined.

(** X19. The fallback of [simulateSearch] does not cover a chat payload
    without readable [choices]: the read that throws in the [try] block is
    made again in the [catch] block (for the log), and the TypeError
    escapes. *)
Theorem simulateSearch_escapes_without_choices
    E request st prompt chatResponse st1 e :
  Legacy.searchPrompt E request = Ok prompt ->
  chatCompletion E (Legacy.simulate_request prompt) st = (Ok chatResponse, st1) ->
  first_content E chatResponse = Throw e ->
  Legacy.simulateSearch E request st = (Throw e, st1).
Proof.
  intros Hprompt Hchat Hfirst.
  unfold Legacy.simulateSearch, bind, try_catch, lift, Legacy.parse_simulated.
  by rewrite Hprompt, Hchat, Hfirst.
Qed.

Lemma simulateSearch_escapes_without_choices_witness :
  let E :=
    Sample.env (fun _ _ => {| delay := 10; outcome := Ok (VObj [("id", VStr "x")]) |})
      None in
  fst (Legacy.simulateSearch E [("query", VStr "test")] Sample.init)
  = Throw (OtherError (Some "Cannot read properties of undefined (reading '0')")).
Proof.
  intros E.
  rewrite (simulateSearch_escapes_without_choices E [("query", VStr "test")]
             Sample.init (Legacy.prompt_text "test" (Sample.show (of_Z 5)))
             (VObj [("id", VStr "x")])
             (snd (Legacy.simulateSearch E [("query", VStr "test")] Sample.init))
             (OtherError (Some "Cannot read properties of undefined (reading '0')")));
    [reflexivity | reflexivity | vm_compute; reflexivity | reflexivity].
Defined.

(* ===================================================================== *)
(** * Loading the environment file *)
(* ===================================================================== *)

Lemma set_if_unset_keeps key value (env : gmap string string) k v :
  env !! k = Some v -> v <> "" -> set_if_unset key value env !! k = Some v.
Proof.
  intros Hk Hv. unfold set_if_unset.
  destruct (decide (key = k)) as [->|Hne].
  - rewrite Hk. apply String.eqb_neq in Hv. by rewrite Hv.
  - destruct (env !! key) as [x|];
      [destruct (String.eqb x "")|destruct (existsb (String.eqb key) inherited)];
      try exact Hk; by rewrite lookup_insert_ne.
Qed.

Lemma load_line_keeps P (env : gmap string string) line k v :
  env !! k = Some v -> v <> "" -> load_line P env line !! k = Some v.
Proof.
  intros Hk Hv. unfold load_line.
  destruct (negb (String.eqb (str_trim P line) "")
            && negb (String.prefix "#" (str_trim P line))); [|exact Hk].
  destruct (split_on "=" (str_trim P line)) as [|key valueParts]; [exact Hk|].
  destruct (negb (String.eqb key "") && negb (Nat.eqb (length valueParts) 0));
    [|exact Hk].
  by apply set_if_unset_keeps.
Qed.

(** X20. [loadEnvironment] never changes a variable that is already set
    to a non-empty value, whatever the file says: the environment of the
    process wins over the file.  The same holds of the loop over the
    lines from any state of the variables, so in the file the first
    non-empty definition of a name wins over the later ones. *)
Theorem loadEnvironment_keeps_what_is_set P file (env : gmap string string) k v :
  env !! k = Some v -> v <> "" ->
  loadEnvironment P file env !! k = Some v
  /\ forall lines, fold_left (load_line P) lines env !! k = Some v.
Proof.
  intros Hk Hv.
  assert (Hfold : forall lines (env' : gmap string string),
             env' !! k = Some v -> fold_left (load_line P) lines env' !! k = Some v).
  { induction lines as [|line lines IH]; intros env' Hk'; [exact Hk'|].
    cbn [fold_left]. apply IH. by apply load_line_keeps. }
  split; [|intros lines; by apply Hfold].
  unfold loadEnvironment.
  pose proof (set_if_unset_keeps "DOTENV_CONFIG_QUIET" "true" env k v Hk Hv).
  destruct file; [by apply Hfold | done].
Qed.

Lemma loadEnvironment_keeps_what_is_set_witness :
  loadEnvironment Sample.platform (Some "XAI_API_KEY=from-file")
    (<[ "XAI_API_KEY" := "from-process" ]> (∅ : gmap string string)) !! "XAI_API_KEY"
  = Some "from-process".
Proof.
  refine (proj1 (loadEnvironment_keeps_what_is_set Sample.platform
                   (Some "XAI_API_KEY=from-file")
                   (<[ "XAI_API_KEY" := "from-process" ]> (∅ : gmap string string))
                   "XAI_API_KEY" "from-process" _ _)).
  - vm_compute. reflexivity.
  - discriminate.
Defined.

Lemma split_on_nonempty sep s : split_on sep s <> [].
Proof.
  induction s as [|c r IH]; cbn [split_on]; [discriminate|].
  destruct (Ascii.eqb c sep); [discriminate|].
  by destruct (split_on sep r).
Qed.

(** Joining what a split gave restores the text. *)
Lemma join_split_on sep s : join (String sep "") (split_on sep s) = s.
Proof.
  induction s as [|c r IH]; [reflexivity|].
  cbn [split_on]. destruct (Ascii.eqb_spec c sep) as [->|Hne].
  - pose proof (split_on_nonempty sep r) as Hr.
    destruct (split_on sep r) as [|x xs] eqn:Hsplit; [contradiction|].
    cbn [join]. cbn [join] in IH. by rewrite IH.
  - destruct (split_on sep r) as [|x xs] eqn:Hsplit.
    + by destruct (split_on_nonempty sep r).
    + destruct xs as [|y ys]; cbn [join] in IH |- *; by rewrite <- IH.
Qed.

(** Up to the first separator. *)
Lemma split_on_first sep key rest :
  (forall c, In c (list_ascii_of_string key) -> c <> sep) ->
  split_on sep (key +:+ String sep rest) = key :: split_on sep rest.
Proof.
  induction key as [|c r IH]; intros Hkey.
  - change ("" +:+ String sep rest) with (String sep rest).
    cbn [split_on]. by rewrite Ascii.eqb_refl.
  - change (String c r +:+ String sep rest) with (String c (r +:+ String sep rest)).
    cbn [split_on].
    destruct (Ascii.eqb_spec c sep) as [->|Hne].
    + by destruct (Hkey sep (or_introl eq_refl)).
    + rewrite IH; [reflexivity|]. intros c' Hc'. apply Hkey. by right.
Qed.

Lemma drop_last_quote_snoc s q :
  is_quote q = true -> drop_last_quote (s +:+ String q "") = s.
Proof.
  intros Hq. induction s as [|c r IH].
  - change ("" +:+ String q "") with (String q ""). cbn [drop_last_quote].
    by rewrite Hq.
  - change (String c r +:+ String q "") with (String c (r +:+ String q "")).
    cbn [drop_last_quote]. rewrite IH. by destruct r.
Qed.

(** X21. A line of the file that reads [name=value] after trimming, with a
    name that is not empty, holds no equals sign and does not start with a
    hash, defines the variable when it is not set yet: the value is all
    the text after the first equals sign (so it may hold equals signs),
    less one quote at its start and one at its end; a value written
    between two quotes is the text between them. *)
Theorem load_line_defines_the_variable P (env : gmap string string) line name value :
  str_trim P line = name +:+ "=" +:+ value ->
  name <> "" ->
  String.prefix "#" name = false ->
  (forall c, In c (list_ascii_of_string name) -> c <> "="%char) ->
  env !! name = None ->
  existsb (String.eqb name) inherited = false ->
  load_line P env line !! name = Some (strip_quotes value)
  /\ (forall q q' text,
        is_quote q = true -> is_quote q' = true ->
        value = String q (text +:+ String q' "") ->
        load_line P env line !! name = Some text).
Proof.
  intros Htrim Hname Hhash Hkey Henv Hin.
  assert (Hload : load_line P env line !! name = Some (strip_quotes value)).
  { unfold load_line. rewrite Htrim.
    assert (Hne : String.eqb (name +:+ "=" +:+ value) "" = false).
    { destruct name; [contradiction | reflexivity]. }
    assert (Hp : String.prefix "#" (name +:+ "=" +:+ value) = false).
    { destruct name as [|c r]; [contradiction|].
      change (String c r +:+ "=" +:+ value) with (String c (r +:+ "=" +:+ value)).
      cbn [String.prefix] in *.
      destruct (Ascii.ascii_dec "#" c); [|reflexivity].
      destruct r; discriminate. }
    rewrite Hne, Hp. cbn [negb andb].
    change (name +:+ "=" +:+ value) with (name +:+ String "=" value).
    rewrite (split_on_first "=" name value Hkey).
    apply String.eqb_neq in Hname. rewrite Hname.
    pose proof (split_on_nonempty "=" value) as Hparts.
    destruct (split_on "=" value) as [|x xs] eqn:Hsplit; [contradiction|].
    cbn [length Nat.eqb negb andb]. rewrite <- Hsplit.
    change "=" with (String "="%char "") at 1. rewrite join_split_on.
    unfold set_if_unset. rewrite Henv, Hin. apply lookup_insert_eq. }
  split; [exact Hload|].
  intros q q' text Hq Hq' ->. rewrite Hload. f_equal.
  unfold strip_quotes. rewrite Hq. by apply drop_last_quote_snoc.
Qed.

Lemma load_line_defines_the_variable_witness :
  load_line Sample.platform (∅ : gmap string string) "XAI_BASE_URL='https://api.x.ai/v1?a=b'" !! "XAI_BASE_URL"
  = Some "https://api.x.ai/v1?a=b".
Proof.
  refine (proj2 (load_line_defines_the_variable Sample.platform
                   (∅ : gmap string string)
                   "XAI_BASE_URL='https://api.x.ai/v1?a=b'" "XAI_BASE_URL"
                   "'https://api.x.ai/v1?a=b'" _ _ _ _ _ _)
            "'"%char "'"%char "https://api.x.ai/v1?a=b" _ _ _);
    try reflexivity.
  - discriminate.
  - intros c Hc. cbn in Hc. decompose [or] Hc; subst; discriminate || contradiction.
Defined.

(** X22. The lines [loadEnvironment] skips: a line that is blank after
    trimming, a comment (starting with a hash), a line without an equals
    sign, and a line that starts with an equals sign leave the variables as
    they are. *)
Theorem load_line_skips P (env : gmap string string) line :
  str_trim P line = ""
  \/ String.prefix "#" (str_trim P line) = true
  \/ (forall c, In c (list_ascii_of_string (str_trim P line)) -> c <> "="%char)
  \/ String.prefix "=" (str_trim P line) = true ->
  load_line P env line = env.
Proof.
  unfold load_line. intros [-> | [-> | [Hnone | Hfirst]]].
  - reflexivity.
  - by rewrite andb_false_r.
  - destruct (negb _ && negb _); [|reflexivity].
    assert (Hsplit : split_on "=" (str_trim P line) = [str_trim P line]).
    { induction (str_trim P line) as [|c r IH]; [reflexivity|].
      cbn [split_on list_ascii_of_string] in *.
      destruct (Ascii.eqb_spec c "=") as [->|Hne].
      - by destruct (Hnone "="%char (or_introl eq_refl)).
      - rewrite IH; [reflexivity|]. intros c' Hc'. apply Hnone. by right. }
    rewrite Hsplit. cbn [length Nat.eqb negb]. by rewrite andb_false_r.
  - destruct (negb _ && negb _); [|reflexivity].
    destruct (str_trim P line) as [|c r]; [reflexivity|].
    cbn [String.prefix] in Hfirst.
    destruct (Ascii.ascii_dec "=" c) as [<-|]; [|discriminate].
    cbn [split_on Ascii.eqb Bool.eqb]. reflexivity.
Qed.

Lemma load_line_skips_witness :
  load_line Sample.platform (<[ "A" := "1" ]> (∅ : gmap string string))
    "# XAI_API_KEY=secret"
  = <[ "A" := "1" ]> (∅ : gmap string string).
Proof.
  apply load_line_skips. right. left. reflexivity.
Defined.
